(** * The drowning monitor: motion differencing, sampled human detection,
      risk heuristic and alert logging

    A shallow embedding of [src/detection.py], [src/ai_model.py] and
    [src/database.py].

    - Frames are BGR images (rows of pixels, each channel an 8-bit value
      held in [Z]); single-channel images are rows of [Z].
    - The OpenCV primitives used by [detect_motion] follow the OpenCV
      documentation for 8-bit images.
    - Python exceptions are values of [PyExn]; code that can raise returns
      a [result].
    - [time.time()] readings are rationals (seconds); the only operations
      the program performs on them are a subtraction and a comparison with
      the literal 10.
    - The outside world (video capture, clock, detector back ends, SQLite,
      sound, keyboard) is a record of oracles, [World]; the interpreter
      state threaded through [main] is the record [Sys]. *)

From Stdlib Require Import String Ascii List Bool Arith ZArith QArith Lia Sorted Permutation.
Import ListNotations.

Close Scope Q_scope.
Local Open Scope string_scope.
Local Open Scope nat_scope.
Local Open Scope list_scope.

(** ** Python values and exceptions *)

(** An exception: its class name and its message.  Every value of this type
    stands for an instance of a subclass of Python's [Exception]. *)
Record PyExn : Type := Raise { exn_class : string; exn_msg : string }.

Inductive result (A : Type) : Type :=
| Ok (a : A)
| Err (e : PyExn).
Arguments Ok {A} a.
Arguments Err {A} e.

Definition is_ok {A} (r : result A) : bool :=
  match r with Ok _ => true | Err _ => false end.

(** [needle in hay] on Python strings. *)
Fixpoint str_in (needle hay : string) : bool :=
  if String.prefix needle hay then true
  else match hay with
       | EmptyString => false
       | String _ rest => str_in needle rest
       end.

(** [c.lower()] on an ASCII character. *)
Definition lower_ascii (c : ascii) : ascii :=
  let n := nat_of_ascii c in
  if (65 <=? n)%nat && (n <=? 90)%nat then ascii_of_nat (n + 32) else c.

(** [s.lower()] *)
Fixpoint lower (s : string) : string :=
  match s with
  | EmptyString => EmptyString
  | String c rest => String (lower_ascii c) (lower rest)
  end.

(** ** Images *)

(** One BGR pixel, channels in OpenCV order. *)
Definition Pixel : Type := (Z * Z * Z)%type.
(** A colour frame: rows of pixels. *)
Definition Frame : Type := list (list Pixel).
(** A single-channel 8-bit image: rows of intensities. *)
Definition Mat : Type := list (list Z).

Definition shape {A} (m : list (list A)) : nat * nat :=
  (length m, length (hd [] m)).

Definition empty {A} (m : list (list A)) : bool :=
  match shape m with
  | (O, _) => true
  | (_, O) => true
  | _ => false
  end.

Definition shape_eqb (s1 s2 : nat * nat) : bool :=
  Nat.eqb (fst s1) (fst s2) && Nat.eqb (snd s1) (snd s2).

Fixpoint zipWith {A B C} (f : A -> B -> C) (l1 : list A) (l2 : list B) : list C :=
  match l1, l2 with
  | x :: l1', y :: l2' => f x y :: zipWith f l1' l2'
  | _, _ => []
  end.

Module cv2.
Local Open Scope Z_scope.

Definition error (msg : string) : PyExn := Raise "cv2.error" msg.

(** [cv2.cvtColor(src, cv2.COLOR_BGR2GRAY)] on an 8-bit image:
    Y = 0.299 R + 0.587 G + 0.114 B in 15-bit fixed point. *)
Definition bgr2gray (p : Pixel) : Z :=
  let '(b, g, r) := p in
  Z.shiftr (b * 3735 + g * 19235 + r * 9798 + 16384) 15.

Definition cvtColor_BGR2GRAY (src : Frame) : result Mat :=
  if empty src then Err (error "(-215:Assertion failed) !_src.empty() in function 'cvtColor'")
  else Ok (map (map bgr2gray) src).

(** [cv2.absdiff(a, b)]: both arrays must have the same size. *)
Definition absdiff (a b : Mat) : result Mat :=
  if shape_eqb (shape a) (shape b)
  then Ok (zipWith (zipWith (fun x y => Z.abs (x - y))) a b)
  else Err (error "(-209:Sizes of input arguments do not match) in function 'arithm_op'").

(** [cv2.threshold(src, thresh, maxval, cv2.THRESH_BINARY)[1]] *)
Definition threshold_BINARY (src : Mat) (thresh maxval : Z) : Mat :=
  map (map (fun v => if thresh <? v then maxval else 0)) src.

(** Maximum over a horizontal window of three; outside the image the
    border does not contribute. *)
Fixpoint hmax3 (prev : Z) (row : list Z) : list Z :=
  match row with
  | [] => []
  | x :: rest => Z.max prev (Z.max x (hd 0 rest)) :: hmax3 x rest
  end.

(** Pointwise maximum of a row with a neighbouring row. *)
Fixpoint max_into (cur other : list Z) : list Z :=
  match cur with
  | [] => []
  | x :: rest => Z.max x (hd 0 other) :: max_into rest (tl other)
  end.

(** Maximum over a vertical window of three rows. *)
Fixpoint vmax3 (prev : list Z) (m : Mat) : Mat :=
  match m with
  | [] => []
  | r :: rest => max_into (max_into r prev) (hd [] rest) :: vmax3 r rest
  end.

(** One pass of dilation by the default 3x3 rectangular kernel. *)
Definition dilate3x3 (m : Mat) : Mat := vmax3 [] (map (hmax3 0) m).

(** [cv2.dilate(src, None, iterations=n)] *)
Definition dilate (src : Mat) (iterations : nat) : Mat :=
  Nat.iter iterations dilate3x3 src.

Definition Point : Type := (nat * nat)%type.
Definition Contour : Type := list Point.

(** Coordinates (row, column) of the non-zero pixels, in raster order. *)
Fixpoint nonzero_row (y x : nat) (row : list Z) : list Point :=
  match row with
  | [] => []
  | v :: rest => (if v =? 0 then [] else [(y, x)]) ++ nonzero_row y (S x) rest
  end.

Fixpoint nonzero_from (y : nat) (m : Mat) : list Point :=
  match m with
  | [] => []
  | r :: rest => nonzero_row y 0%nat r ++ nonzero_from (S y) rest
  end.

Definition nonzero (m : Mat) : list Point := nonzero_from 0%nat m.

Definition near (a b : nat) : bool := (a <=? S b)%nat && (b <=? S a)%nat.

(** 8-connectivity *)
Definition adjacent (p q : Point) : bool :=
  near (fst p) (fst q) && near (snd p) (snd q).

(** Grow a region from [frontier] through the points of [rest]; returns
    the points reached and the points left over. *)
Fixpoint flood (fuel : nat) (frontier rest : list Point) : list Point * list Point :=
  match fuel with
  | O => ([], rest)
  | S fuel' =>
      let (reached, far) := partition (fun q => existsb (adjacent q) frontier) rest in
      match reached with
      | [] => ([], rest)
      | _ => let (more, left) := flood fuel' reached far in (reached ++ more, left)
      end
  end.

Fixpoint regions (fuel : nat) (pts : list Point) : list Contour :=
  match fuel with
  | O => []
  | S fuel' =>
      match pts with
      | [] => []
      | p :: rest =>
          let (reached, left) := flood (length rest) [p] rest in
          (p :: reached) :: regions fuel' left
      end
  end.

(** [cv2.findContours(image, cv2.RETR_EXTERNAL, cv2.CHAIN_APPROX_SIMPLE)[0]]:
    one contour per 8-connected region of non-zero pixels, each given
    here by the pixels of its region.  The caller only looks at the
    number of contours. *)
Definition findContours (image : Mat) : list Contour :=
  let pts := nonzero image in regions (length pts) pts.

End cv2.

(** ** [detection.py]: frame differencing *)

Definition bind_result {A B} (r : result A) (k : A -> result B) : result B :=
  match r with
  | Ok a => k a
  | Err e => Err e
  end.

Notation "'try!' x <- r ; k" := (bind_result r (fun x => k))
  (at level 10, x name, r at level 100, k at level 200).

(** [detect_motion(frame1, frame2)] returns [(motion_detected, thresh)]. *)
Definition detect_motion (frame1 frame2 : Frame) : result (bool * Mat) :=
  try! gray1 <- cv2.cvtColor_BGR2GRAY frame1;
  try! gray2 <- cv2.cvtColor_BGR2GRAY frame2;
  try! diff <- cv2.absdiff gray1 gray2;
  let thresh := cv2.threshold_BINARY diff 25%Z 255%Z in
  let thresh := cv2.dilate thresh 2 in
  let contours := cv2.findContours thresh in
  let motion_detected := (0 <? length contours)%nat in
  Ok (motion_detected, thresh).

(** ** The outside world and the interpreter state *)

(** A bounding box returned by the YOLO back end. *)
Definition Detection : Type := (Z * Z * Z * Z)%type.

(** The [details] text of an alert row is the f-string
    ["Status: {risk_status}, Time without motion: {time_without_motion:.1f}s"];
    a row keeps the two interpolated values. *)
Record Details : Type := MkDetails { d_status : string; d_time_without_motion : Q }.

(** A row of the [alerts] table: [(alert_type, details)]. *)
Definition Row : Type := (string * Details)%type.

Inductive Event : Type :=
| Print (line : string)                 (* print(line) *)
| DetectHumans (frame : Frame)          (* detect_humans_in_frame(frame) entered *)
| Beep (frequency duration : nat)       (* winsound.Beep(frequency, duration) called *)
| Imshow (winname : string) (image : Mat). (* cv2.imshow(winname, image) *)

Record World : Type := MkWorld {
  argv : list string;                    (* sys.argv *)
  video : list Frame;                    (* the frames cap.read() delivers, then ret = False *)
  isOpened : nat -> bool;                (* cap.isOpened() after that many iterations *)
  clock : nat -> Q;                      (* the n-th reading of time.time() *)
  USE_YOLO : bool;
  USE_TF : bool;
  yolo_detect_humans : nat -> Frame -> result (list Detection);
                                         (* yolo_detector.detect_humans at the n-th detection *)
  tf_top5 : nat -> Frame -> result (list string);
                                         (* class names of decode_predictions(..., top=5)[0] *)
  sqlite_fault : nat -> option PyExn;    (* what sqlite3 raises when the table holds n rows *)
  SOUND_AVAILABLE : bool;
  winsound_Beep : nat -> option PyExn;   (* what winsound.Beep raises in iteration n *)
  waitKey : nat -> Z                     (* cv2.waitKey(1) at the end of iteration n *)
}.

Record Sys : Type := MkSys {
  trace : list Event;                    (* observable events, oldest first *)
  ticks : nat;                           (* readings of time.time() so far *)
  detects : nat;                         (* calls of detect_humans_in_frame so far *)
  alerts : list Row                      (* the alerts table, oldest row first *)
}.

Definition boot : Sys := MkSys [] 0 0 [].

(** Computations with effects on [Sys] that may raise. *)
Definition M (A : Type) : Type := Sys -> Sys * result A.

Definition ret {A} (a : A) : M A := fun s => (s, Ok a).

Definition bind {A B} (m : M A) (k : A -> M B) : M B :=
  fun s => match m s with
           | (s', Ok a) => k a s'
           | (s', Err e) => (s', Err e)
           end.

Definition lift {A} (r : result A) : M A := fun s => (s, r).

(** [try: body  except Exception as e: handler(e)] *)
Definition try_except {A} (body : M A) (handler : PyExn -> M A) : M A :=
  fun s => match body s with
           | (s', Ok a) => (s', Ok a)
           | (s', Err e) => handler e s'
           end.

Declare Scope py_scope.
Delimit Scope py_scope with py.
Notation "x <- m ;; k" := (bind m (fun x => k))
  (at level 61, m at next level, right associativity) : py_scope.
Notation "' pat <- m ;; k" := (bind m (fun x => match x with pat => k end))
  (at level 61, pat pattern, m at next level, right associativity) : py_scope.
Notation "m ;; k" := (bind m (fun _ => k))
  (at level 61, right associativity) : py_scope.
Local Open Scope py_scope.

Definition emit (e : Event) : M unit :=
  fun s => (MkSys (trace s ++ [e]) (ticks s) (detects s) (alerts s), Ok tt).

Definition print (line : string) : M unit := emit (Print line).

Definition time_time (w : World) : M Q :=
  fun s => (MkSys (trace s) (S (ticks s)) (detects s) (alerts s), Ok (clock w (ticks s))).

(** ** [ai_model.py] *)

(** The statements inside the [try] of [detect_humans_in_frame], run as the
    [n]-th detection. *)
Definition detect_body (w : World) (n : nat) (frame : Frame)
  : result (nat * list Detection) :=
  if USE_YOLO w then
    try! detections <- yolo_detect_humans w n frame;
    Ok (length detections, detections)
  else if USE_TF w then
    try! decoded <- tf_top5 w n frame;
    let human_detected := existsb (fun name => str_in "person" (lower name)) decoded in
    Ok (if human_detected then 1 else 0, [])
  else
    Ok (0, []).

Definition enter_detection (frame : Frame) : M nat :=
  fun s => (MkSys (trace s ++ [DetectHumans frame]) (ticks s) (S (detects s)) (alerts s),
            Ok (detects s)).

Definition detect_humans_in_frame (w : World) (frame : Frame)
  : M (nat * list Detection) :=
  n <- enter_detection frame ;;
  try_except
    (lift (detect_body w n frame))
    (fun e => print ("Error in AI detection: " ++ exn_msg e) ;; ret (0, [])).

Definition NO_HUMAN : string := "No human detected".
Definition ACTIVE : string := "Active - Normal swimming".
Definition ALERT : string := "ALERT: Potential drowning - No motion detected".
Definition MONITORING : string := "Monitoring - Minimal motion".

(** [a > b] on time values *)
Definition Qgtb (a b : Q) : bool := negb (Qle_bool a b).

Definition analyze_drowning_risk (human_present motion_detected : bool)
  (time_without_motion : Q) : string :=
  if negb human_present then NO_HUMAN
  else if motion_detected then ACTIVE
  else if Qgtb time_without_motion 10%Q then ALERT
  else MONITORING.

(** ** [database.py] *)

Definition log_alert (w : World) (alert_type : string) (details : Details) : M unit :=
  fun s =>
    match sqlite_fault w (length (alerts s)) with
    | Some e => (s, Err e)
    | None => (MkSys (trace s) (ticks s) (detects s) (alerts s ++ [(alert_type, details)]),
               Ok tt)
    end.

(** ** [detection.py]: the monitor *)

Definition winsound_Beep_call (w : World) (n frequency duration : nat) : M unit :=
  emit (Beep frequency duration) ;;
  match winsound_Beep w n with
  | Some e => lift (Err e)
  | None => ret tt
  end.

(** One pass through the body of the [while] loop, from the increment of
    [frame_count] to [cv2.imshow]; [frame_count] is the value before the
    increment.  Returns the updated [last_motion_time] and [human_present]. *)
Definition loop_body (w : World) (frame1 frame2 : Frame) (last_motion_time : Q)
  (frame_count : nat) (human_present : bool) : M (Q * bool) :=
  let frame_count := S frame_count in
  '(motion, thresh) <- lift (detect_motion frame1 frame2) ;;
  last_motion_time <- (if motion : bool then time_time w else ret last_motion_time) ;;
  human_present <-
    (if frame_count mod 30 =? 0 then
       '(human_count, detections) <- detect_humans_in_frame w frame2 ;;
       ret (0 <? human_count)
     else ret human_present) ;;
  now <- time_time w ;;
  let time_without_motion := (now - last_motion_time)%Q in
  let risk_status := analyze_drowning_risk human_present motion time_without_motion in
  print ("Status: " ++ risk_status) ;;
  (if str_in "ALERT" risk_status then
     log_alert w "DROWNING_ALERT" (MkDetails risk_status time_without_motion) ;;
     if SOUND_AVAILABLE w
     then try_except (winsound_Beep_call w frame_count 2000 500) (fun _ => ret tt)
     else ret tt
   else ret tt) ;;
  emit (Imshow "Motion Detection" thresh) ;;
  ret (last_motion_time, human_present).

(** The [while cap.isOpened()] loop; [cap] holds the frames not yet read. *)
Fixpoint monitor_loop (w : World) (cap : list Frame) (frame1 frame2 : Frame)
  (last_motion_time : Q) (frame_count : nat) (human_present : bool) {struct cap}
  : M unit :=
  if isOpened w frame_count then
    '(last_motion_time, human_present) <-
       loop_body w frame1 frame2 last_motion_time frame_count human_present ;;
    let frame_count := S frame_count in
    match cap with
    | [] => ret tt                                   (* ret is False: break *)
    | frame3 :: cap' =>
        if (Z.land (waitKey w frame_count) 255 =? 113)%Z then ret tt   (* 'q' *)
        else monitor_loop w cap' frame2 frame3 last_motion_time frame_count human_present
    end
  else ret tt.

Definition main (w : World) : M unit :=
  match argv w with
  | _ :: video_path :: _ => print ("Using video file: " ++ video_path)
  | _ => print "Using webcam"
  end ;;
  match video w with
  | frame1 :: frame2 :: cap =>
      print "AI Drowning Detection System Started" ;;
      print "Press 'q' to quit" ;;
      last_motion_time <- time_time w ;;
      monitor_loop w cap frame1 frame2 last_motion_time 0 false ;;
      print "System stopped"
  | _ => print "Error: Cannot read video feed"
  end.

(** ** Observations on a run *)

Fixpoint drop_prefix (p s : string) : option string :=
  match p with
  | EmptyString => Some s
  | String a p' =>
      match s with
      | EmptyString => None
      | String b s' => if Ascii.eqb a b then drop_prefix p' s' else None
      end
  end.

(** The risk status printed by an event, if it is a status line. *)
Definition status_of (e : Event) : list string :=
  match e with
  | Print line => match drop_prefix "Status: " line with Some st => [st] | None => [] end
  | _ => []
  end.

(** The risk statuses printed during a run, one per evaluated frame. *)
Definition statuses (tr : list Event) : list string := flat_map status_of tr.

(** The frame numbers (counting from 1, as [frame_count] does) during which
    [detect_humans_in_frame] was entered: a detection that follows [n]
    status lines belongs to frame [n + 1]. *)
Fixpoint detect_frames_from (n : nat) (tr : list Event) : list nat :=
  match tr with
  | [] => []
  | DetectHumans _ :: tr' => S n :: detect_frames_from n tr'
  | e :: tr' => detect_frames_from (n + length (status_of e)) tr'
  end.

Definition detect_frames (tr : list Event) : list nat := detect_frames_from 0 tr.

Definition is_alert (status : string) : bool := str_in "ALERT" status.

(** Number of maximal runs of consecutive ALERT statuses. *)
Fixpoint episodes_from (previous_alert : bool) (sts : list string) : nat :=
  match sts with
  | [] => 0
  | st :: rest =>
      (if is_alert st && negb previous_alert then 1 else 0)
      + episodes_from (is_alert st) rest
  end.

Definition episodes (sts : list string) : nat := episodes_from false sts.

Definition run (w : World) : Sys * result unit := main w boot.

(** What a run leaves behind: the statuses printed, the frames on which the
    detector was called, and the rows of the alerts table. *)
Record View : Type := MkView {
  seen : list string;
  sampled : list nat;
  stored : list Row
}.

Definition view (s : Sys) : View :=
  MkView (statuses (trace s)) (detect_frames (trace s)) (alerts s).

(** The multiples of 30 among the frame numbers 1..n. *)
Definition sample_points (n : nat) : list nat := map (fun k => 30 * k) (seq 1 (n / 30)).

(** The status recorded in each row of the alerts table. *)
Definition alert_statuses (rows : list Row) : list string :=
  map (fun row => d_status (snd row)) rows.

(** The all-zero image of the size of [m]. *)
Definition zeros {A} (m : list (list A)) : Mat := map (map (fun _ => 0%Z)) m.

(** The value [detect_humans_in_frame] hands back as the [n]-th detection. *)
Definition detected (w : World) (n : nat) (frame : Frame) : nat * list Detection :=
  match detect_body w n frame with
  | Ok v => v
  | Err _ => (0, [])
  end.

(** What the [n]-th detection adds to the trace. *)
Definition detection_events (w : World) (n : nat) (frame : Frame) : list Event :=
  DetectHumans frame ::
  match detect_body w n frame with
  | Ok _ => []
  | Err e => [Print ("Error in AI detection: " ++ exn_msg e)]
  end.

Definition empty_view : View := MkView [] [] [].

(** The possible effects of one iteration on the view, starting the
    iteration with [frame_count = c] and [human_present = hp]. *)
Inductive body_outcome (w : World) (c : nat) (hp : bool) (v : View)
  : View -> result (Q * bool) -> Prop :=
| frame_rejected (e : PyExn) :
    (* detect_motion raised: nothing was evaluated *)
    body_outcome w c hp v v (Err e)
| frame_evaluated (motion : bool) (twm lmt' : Q) (hp' : bool) :
    (S c mod 30 <> 0 -> hp' = hp) ->
    (is_alert (analyze_drowning_risk hp' motion twm) = true ->
     sqlite_fault w (length (stored v)) = None) ->
    body_outcome w c hp v
      (MkView
         (seen v ++ [analyze_drowning_risk hp' motion twm])
         (sampled v ++ (if S c mod 30 =? 0 then [S (length (seen v))] else []))
         (stored v ++
            (if is_alert (analyze_drowning_risk hp' motion twm)
             then [("DROWNING_ALERT", MkDetails (analyze_drowning_risk hp' motion twm) twm)]
             else [])))
      (Ok (lmt', hp'))
| alert_lost (motion : bool) (twm : Q) (hp' : bool) (e : PyExn) :
    (* log_alert raised *)
    (S c mod 30 <> 0 -> hp' = hp) ->
    is_alert (analyze_drowning_risk hp' motion twm) = true ->
    sqlite_fault w (length (stored v)) = Some e ->
    body_outcome w c hp v
      (MkView
         (seen v ++ [analyze_drowning_risk hp' motion twm])
         (sampled v ++ (if S c mod 30 =? 0 then [S (length (seen v))] else []))
         (stored v))
      (Err e).

(** *** Sample worlds *)

Definition px (v : Z) : Pixel := (v, v, v).
Definition still : Frame := [[px 7]].

Definition quiet_world (n : nat) : World :=
  {| argv := ["detection.py"];
     video := repeat still n;
     isOpened := fun _ => true;
     clock := fun k => inject_Z (Z.of_nat k);
     USE_YOLO := true;
     USE_TF := false;
     yolo_detect_humans := fun _ _ => Ok [(0, 0, 1, 1)%Z];
     tf_top5 := fun _ _ => Ok [];
     sqlite_fault := fun _ => None;
     SOUND_AVAILABLE := false;
     winsound_Beep := fun _ => None;
     waitKey := fun _ => (-1)%Z |}.


(** The same world with another detector back end, SQLite behaviour and
    sound device. *)
Definition with_faults (w : World)
  (yolo : nat -> Frame -> result (list Detection))
  (sqlite : nat -> option PyExn) (sound : bool) (beep : nat -> option PyExn) : World :=
  {| argv := argv w;
     video := video w;
     isOpened := isOpened w;
     clock := clock w;
     USE_YOLO := USE_YOLO w;
     USE_TF := USE_TF w;
     yolo_detect_humans := yolo;
     tf_top5 := tf_top5 w;
     sqlite_fault := sqlite;
     SOUND_AVAILABLE := sound;
     winsound_Beep := beep;
     waitKey := waitKey w |}.

(** The world [w] with another behaviour of [winsound.Beep]. *)
Definition with_beep (w : World) (beep : nat -> option PyExn) : World :=
  with_faults w (yolo_detect_humans w) (sqlite_fault w) (SOUND_AVAILABLE w) beep.

(** A human is found by the first detection; every later detection times
    out. *)
Definition timeout_world (n : nat) : World :=
  with_faults (quiet_world n)
    (fun k _ => match k with
                | O => Ok [(0, 0, 1, 1)%Z]
                | S _ => Err (Raise "TimeoutError" "detector timed out")
                end)
    (fun _ => None) false (fun _ => None).

(** SQLite refuses every insertion. *)
Definition locked_world (n : nat) : World :=
  with_faults (quiet_world n) (yolo_detect_humans (quiet_world n))
    (fun _ => Some (Raise "sqlite3.OperationalError" "database is locked"))
    false (fun _ => None).

(** The third frame has another width than the first two. *)
Definition resized_world : World :=
  {| argv := ["detection.py"];
     video := [still; still; [[px 7; px 7]]; [[px 7; px 7]]; [[px 7; px 7]]];
     isOpened := fun _ => true;
     clock := fun k => inject_Z (Z.of_nat k);
     USE_YOLO := true;
     USE_TF := false;
     yolo_detect_humans := fun _ _ => Ok [(0, 0, 1, 1)%Z];
     tf_top5 := fun _ _ => Ok [];
     sqlite_fault := fun _ => None;
     SOUND_AVAILABLE := false;
     winsound_Beep := fun _ => None;
     waitKey := fun _ => (-1)%Z |}.

(** ** [database.py]: reading the alerts back *)

(** A row as [SELECT * FROM alerts] returns it:
    [(id, timestamp, alert_type, details)]. *)
Record AlertRecord : Type := MkAlert {
  a_id : nat;
  a_timestamp : Z;
  a_type : string;
  a_details : Details
}.

(** The table as SQLite holds it.  [id] is [AUTOINCREMENT], so the row
    inserted as the (i+1)-th gets the id i+1 (no row is ever deleted);
    [stamp i] is the value [CURRENT_TIMESTAMP] had when it was inserted. *)
Fixpoint table_from (stamp : nat -> Z) (i : nat) (rows : list Row) : list AlertRecord :=
  match rows with
  | [] => []
  | (alert_type, details) :: rest =>
      MkAlert (S i) (stamp i) alert_type details :: table_from stamp (S i) rest
  end.

Definition table (stamp : nat -> Z) (rows : list Row) : list AlertRecord :=
  table_from stamp 0 rows.

(** [ORDER BY timestamp DESC]: later timestamps first.  SQL leaves the order
    of rows with equal timestamps open; here they stay in insertion order. *)
Fixpoint insert_desc (r : AlertRecord) (sorted : list AlertRecord) : list AlertRecord :=
  match sorted with
  | [] => [r]
  | r' :: rest =>
      if (a_timestamp r' <=? a_timestamp r)%Z then r :: r' :: rest
      else r' :: insert_desc r rest
  end.

Fixpoint order_by_timestamp_desc (rows : list AlertRecord) : list AlertRecord :=
  match rows with
  | [] => []
  | r :: rest => insert_desc r (order_by_timestamp_desc rest)
  end.

(** [LIMIT ?]: a negative limit means no limit in SQLite. *)
Definition sql_limit {A} (limit : Z) (rows : list A) : list A :=
  if (limit <? 0)%Z then rows else firstn (Z.to_nat limit) rows.

(** [get_recent_alerts(limit)]; [fault] is what sqlite3 raises during the
    query, if anything. *)
Definition get_recent_alerts (stamp : nat -> Z) (fault : option PyExn) (limit : Z)
  : M (list AlertRecord) :=
  fun s =>
    match fault with
    | Some e => (s, Err e)
    | None => (s, Ok (sql_limit limit (order_by_timestamp_desc (table stamp (alerts s)))))
    end.

(** [for line in lines: print(line)] *)
Fixpoint print_lines (lines : list string) : M unit :=
  match lines with
  | [] => ret tt
  | line :: rest => print line ;; print_lines rest
  end.

(** [view_alerts()].  [show_timestamp] and [show_details] give the text of
    the columns [alert[1]] and [alert[3]]. *)
Definition view_alerts (stamp : nat -> Z) (fault : option PyExn)
  (show_timestamp : Z -> string) (show_details : Details -> string) : M unit :=
  alerts <- get_recent_alerts stamp fault 10 ;;
  match alerts with
  | _ :: _ =>
      print "Recent Alerts:" ;;
      print_lines
        (map (fun alert => (show_timestamp (a_timestamp alert) ++ " - " ++ a_type alert
                            ++ ": " ++ show_details (a_details alert))%string) alerts)
  | [] => print "No alerts logged yet."
  end.

(** Later timestamps first. *)
Definition newest_first (rows : list AlertRecord) : Prop :=
  StronglySorted (fun a b => a_timestamp b <= a_timestamp a)%Z rows.

(** The text [view_alerts] prints for a row. *)
Definition alert_line (show_timestamp : Z -> string) (show_details : Details -> string)
  (alert : AlertRecord) : string :=
  show_timestamp (a_timestamp alert) ++ " - " ++ a_type alert ++ ": "
  ++ show_details (a_details alert).

(** ** Further observations *)

(** The absolute difference of the grey values of two frames. *)
Definition gray_diff (frame1 frame2 : Frame) : Mat :=
  zipWith (zipWith (fun p q => Z.abs (cv2.bgr2gray p - cv2.bgr2gray q))) frame1 frame2.

(** Some pixel is greater than [t]. *)
Definition any_above (t : Z) (m : Mat) : bool := existsb (existsb (fun v => t <? v)%Z) m.

Definition bit (v : Z) : Prop := (v = 0 \/ v = 255)%Z.

(** Every pixel is 0 or 255. *)
Definition binary_mask (m : Mat) : Prop := Forall (Forall bit) m.

(** The mask [detect_motion] returns for two frames it accepts. *)
Definition motion_mask (frame1 frame2 : Frame) : Mat :=
  cv2.dilate (cv2.threshold_BINARY (gray_diff frame1 frame2) 25 255) 2.

(** The first line [main] prints. *)
Definition banner (w : World) : string :=
  match argv w with
  | _ :: video_path :: _ => ("Using video file: " ++ video_path)%string
  | _ => "Using webcam"
  end.

(** The state in which [main] enters the loop. *)
Definition loop_entry (w : World) : Sys :=
  MkSys [Print (banner w); Print "AI Drowning Detection System Started";
         Print "Press 'q' to quit"] 1 0 [].

(** The events an iteration of the loop can add to the trace: detections,
    beeps, the mask window, and printed lines that are a status line or the
    error line of the detector. *)
Definition loop_event (e : Event) : Prop :=
  match e with
  | Print line =>
      (exists st, line = ("Status: " ++ st)%string) \/
      (exists msg, line = ("Error in AI detection: " ++ msg)%string)
  | _ => True
  end.

Definition is_beep (e : Event) : bool :=
  match e with
  | Beep _ _ => true
  | _ => false
  end.

(** The number of calls of [winsound.Beep] in a trace. *)
Definition beeps (tr : list Event) : nat := length (filter is_beep tr).


(** The frames of a video are images of one size with at least one pixel. *)
Definition uniform_video (frames : list Frame) (sh : nat * nat) : Prop :=
  Forall (fun f => empty f = false /\ shape f = sh) frames.

(** A row as this monitor writes it. *)
Definition drowning_row (row : Row) : Prop :=
  fst row = "DROWNING_ALERT" /\ d_status (snd row) = ALERT /\
  (10 < d_time_without_motion (snd row))%Q.

(** Five still frames; 'q' is pressed, with a modifier bit set above the
    low byte, at the end of the second iteration. *)
Definition quitting_world : World :=
  {| argv := ["detection.py"];
     video := repeat still 5;
     isOpened := fun _ => true;
     clock := fun k => inject_Z (Z.of_nat k);
     USE_YOLO := true;
     USE_TF := false;
     yolo_detect_humans := fun _ _ => Ok [(0, 0, 1, 1)%Z];
     tf_top5 := fun _ _ => Ok [];
     sqlite_fault := fun _ => None;
     SOUND_AVAILABLE := false;
     winsound_Beep := fun _ => None;
     waitKey := fun k => if k =? 2 then 369%Z else (-1)%Z |}.

(** Neither YOLO nor TensorFlow is available. *)
Definition blind_world (n : nat) : World :=
  {| argv := ["detection.py"; "pool.mp4"];
     video := repeat still n;
     isOpened := fun _ => true;
     clock := fun k => inject_Z (Z.of_nat k);
     USE_YOLO := false;
     USE_TF := false;
     yolo_detect_humans := fun _ _ => Ok [(0, 0, 1, 1)%Z];
     tf_top5 := fun _ _ => Ok ["person"];
     sqlite_fault := fun _ => None;
     SOUND_AVAILABLE := true;
     winsound_Beep := fun _ => None;
     waitKey := fun _ => (-1)%Z |}.

(** * Properties *)

(** ** Frame differencing *)

Section FrameDiffer.
Local Open Scope Z_scope.

Lemma zipWith_diag {A C} (f : A -> A -> C) (l : list A) :
  zipWith f l l = map (fun x => f x x) l.
Proof. induction l as [|x l IH]; simpl; [reflexivity | now rewrite IH]. Qed.

Lemma shape_map {A B} (f : A -> B) (m : list (list A)) :
  shape (map (map f) m) = shape m.
Proof.
  unfold shape. rewrite length_map.
  destruct m as [|r m]; simpl; [reflexivity | now rewrite length_map].
Qed.

Lemma shape_eqb_refl (sh : nat * nat) : shape_eqb sh sh = true.
Proof. unfold shape_eqb. now rewrite !Nat.eqb_refl. Qed.

Lemma shape_eqb_neq (s1 s2 : nat * nat) : s1 <> s2 -> shape_eqb s1 s2 = false.
Proof.
  destruct s1 as [h1 w1], s2 as [h2 w2]; unfold shape_eqb; simpl; intros Hne.
  destruct (Nat.eqb_spec h1 h2); [|reflexivity].
  destruct (Nat.eqb_spec w1 w2); [|reflexivity].
  subst. now elim Hne.
Qed.

Lemma absdiff_same (g : Mat) : cv2.absdiff g g = Ok (zeros g).
Proof.
  unfold cv2.absdiff. rewrite shape_eqb_refl. apply (f_equal Ok).
  rewrite zipWith_diag. unfold zeros. apply map_ext. intros row.
  rewrite zipWith_diag. apply map_ext. intros x.
  now rewrite Z.sub_diag.
Qed.

Lemma zeros_map {A B} (f : A -> B) (m : list (list A)) :
  zeros (map (map f) m) = zeros m.
Proof.
  unfold zeros. rewrite map_map. apply map_ext. intros row. now rewrite map_map.
Qed.

Lemma threshold_zeros {A} (m : list (list A)) :
  cv2.threshold_BINARY (zeros m) 25 255 = zeros m.
Proof.
  unfold cv2.threshold_BINARY, zeros. rewrite map_map. apply map_ext.
  intros row. now rewrite map_map.
Qed.

Lemma hmax3_zero {A} (row : list A) :
  cv2.hmax3 0 (map (fun _ => 0) row) = map (fun _ => 0) row.
Proof.
  induction row as [|x row IH]; simpl; [reflexivity|].
  rewrite IH. destruct row; reflexivity.
Qed.

Lemma max_into_zero {A} (row : list A) (other : list Z) :
  Forall (eq 0) other ->
  cv2.max_into (map (fun _ => 0) row) other = map (fun _ => 0) row.
Proof.
  revert other. induction row as [|x row IH]; intros other Hz; simpl; [reflexivity|].
  destruct Hz as [|y other Hy Hz]; simpl.
  - now rewrite IH.
  - subst y. now rewrite IH.
Qed.

Lemma Forall_zero_map {A} (row : list A) : Forall (eq 0) (map (fun _ => 0) row).
Proof. induction row; simpl; constructor; auto. Qed.

Lemma vmax3_zero {A} (m : list (list A)) (prev : list Z) :
  Forall (eq 0) prev -> cv2.vmax3 prev (zeros m) = zeros m.
Proof.
  revert prev. induction m as [|r m IH]; intros prev Hz; simpl; [reflexivity|].
  rewrite (max_into_zero r prev Hz).
  rewrite max_into_zero.
  - f_equal. apply IH. apply Forall_zero_map.
  - destruct m; simpl; [constructor | apply Forall_zero_map].
Qed.

Lemma dilate3x3_zeros {A} (m : list (list A)) : cv2.dilate3x3 (zeros m) = zeros m.
Proof.
  unfold cv2.dilate3x3.
  replace (map (cv2.hmax3 0) (zeros m)) with (zeros m).
  - apply vmax3_zero. constructor.
  - unfold zeros. rewrite map_map. apply map_ext. intros row.
    symmetry. apply hmax3_zero.
Qed.

Lemma dilate_zeros {A} (m : list (list A)) (n : nat) : cv2.dilate (zeros m) n = zeros m.
Proof.
  unfold cv2.dilate. induction n as [|n IH]; simpl; [reflexivity|].
  rewrite IH. apply dilate3x3_zeros.
Qed.

Lemma nonzero_row_zero {A} (row : list A) (y x : nat) :
  cv2.nonzero_row y x (map (fun _ => 0) row) = [].
Proof. revert x. induction row as [|a row IH]; intros x; simpl; auto. Qed.

Lemma nonzero_zeros {A} (m : list (list A)) : cv2.nonzero (zeros m) = [].
Proof.
  unfold cv2.nonzero. generalize 0%nat.
  induction m as [|r m IH]; intros y; simpl; [reflexivity|].
  now rewrite nonzero_row_zero, IH.
Qed.

Lemma findContours_zeros {A} (m : list (list A)) : cv2.findContours (zeros m) = [].
Proof. unfold cv2.findContours. now rewrite nonzero_zeros. Qed.

(** C7: two identical frames (an image with at least one pixel compared
    with itself) give [motion_detected = False]; the mask returned with
    it is all zero. *)
Theorem detect_motion_identical (frame : Frame) :
  empty frame = false ->
  detect_motion frame frame = Ok (false, zeros frame).
Proof.
  intros Hne. unfold detect_motion, cv2.cvtColor_BGR2GRAY.
  rewrite Hne. cbn [bind_result]. rewrite absdiff_same. cbn [bind_result].
  rewrite zeros_map, threshold_zeros, dilate_zeros, findContours_zeros.
  reflexivity.
Qed.

Lemma detect_motion_identical_witness :
  detect_motion still still = Ok (false, [[0]]).
Proof. apply (detect_motion_identical still). reflexivity. Defined.

Lemma detect_motion_mismatch (frame1 frame2 : Frame) :
  empty frame1 = false -> empty frame2 = false ->
  shape frame1 <> shape frame2 ->
  detect_motion frame1 frame2 =
    Err (cv2.error "(-209:Sizes of input arguments do not match) in function 'arithm_op'").
Proof.
  intros H1 H2 Hne. unfold detect_motion, cv2.cvtColor_BGR2GRAY.
  rewrite H1, H2. cbn [bind_result]. unfold cv2.absdiff.
  rewrite !shape_map, (shape_eqb_neq _ _ Hne). reflexivity.
Qed.

End FrameDiffer.

(** ** The risk heuristic *)

Section RiskHeuristic.
Local Open Scope Q_scope.

Lemma Qgtb_spec (a b : Q) : Qgtb a b = true <-> b < a.
Proof.
  unfold Qgtb. destruct (Qle_bool a b) eqn:E; simpl.
  - apply Qle_bool_iff in E. split; [discriminate|].
    intros Hlt. exfalso. exact (Qle_not_lt _ _ E Hlt).
  - split; [intros _|reflexivity].
    apply Qnot_le_lt. intros Hle. apply Qle_bool_iff in Hle. congruence.
Qed.

Lemma analyze_absent (motion_detected : bool) (time_without_motion : Q) :
  analyze_drowning_risk false motion_detected time_without_motion = NO_HUMAN.
Proof. reflexivity. Qed.

(** C8: without a human present the result is "No human detected",
    whatever the motion flag and the time without motion are, and that
    status never counts as an alert. *)
Theorem analyze_no_human (motion_detected : bool) (time_without_motion : Q) :
  analyze_drowning_risk false motion_detected time_without_motion = NO_HUMAN /\
  is_alert (analyze_drowning_risk false motion_detected time_without_motion) = false.
Proof. split; reflexivity. Qed.

(** C3 (as amended): with a human present and no motion the result is the
    ALERT status exactly when the time without motion is strictly greater
    than 10 seconds, and the MONITORING status exactly when it is at most
    10 seconds. *)
Theorem analyze_alert_iff (time_without_motion : Q) :
  (analyze_drowning_risk true false time_without_motion = ALERT
     <-> 10 < time_without_motion) /\
  (analyze_drowning_risk true false time_without_motion = MONITORING
     <-> time_without_motion <= 10).
Proof.
  unfold analyze_drowning_risk. simpl.
  destruct (Qgtb time_without_motion 10) eqn:E.
  - assert (Hlt : 10 < time_without_motion) by now apply Qgtb_spec.
    split; split; auto; intros H.
    + discriminate H.
    + exfalso. exact (Qle_not_lt _ _ H Hlt).
  - assert (Hle : time_without_motion <= 10).
    { apply Qnot_lt_le. intros Hlt. apply Qgtb_spec in Hlt. congruence. }
    split; split; auto; intros H.
    + discriminate H.
    + exfalso. exact (Qle_not_lt _ _ Hle H).
Qed.

(** C3 as stated (ALERT exactly when the elapsed time is at least the 10
    second threshold) fails at an elapsed time of exactly 10 seconds: the
    result there is the MONITORING status. *)
Lemma analyze_alert_at_threshold :
  analyze_drowning_risk true false 10 = MONITORING /\
  ~ (analyze_drowning_risk true false 10 = ALERT <-> 10 <= 10).
Proof.
  split; [reflexivity|].
  intros [_ H]. assert (Hle : 10 <= 10) by apply Qle_refl.
  specialize (H Hle). discriminate H.
Qed.

End RiskHeuristic.

(** ** The sampled detector *)

Section Detector.
Variable w : World.

Lemma detect_humans_in_frame_eq (frame : Frame) (s : Sys) :
  detect_humans_in_frame w frame s =
    let s1 := MkSys (trace s ++ [DetectHumans frame]) (ticks s) (S (detects s)) (alerts s) in
    match detect_body w (detects s) frame with
    | Ok v => (s1, Ok v)
    | Err e =>
        (MkSys (trace s1 ++ [Print ("Error in AI detection: " ++ exn_msg e)])
               (ticks s) (S (detects s)) (alerts s),
         Ok (0, []))
    end.
Proof.
  unfold detect_humans_in_frame, bind, enter_detection, try_except, lift. simpl.
  destruct (detect_body w (detects s) frame); reflexivity.
Qed.

(** C9: [detect_humans_in_frame] always returns a value and never raises;
    when the statements inside its [try] raise, it returns the count 0
    with an empty detection list, which is exactly what it returns when
    the YOLO back end answers with no detection. *)
Theorem detect_humans_in_frame_total (frame : Frame) (s : Sys) :
  (exists v, snd (detect_humans_in_frame w frame s) = Ok v) /\
  (forall e, detect_body w (detects s) frame = Err e ->
             snd (detect_humans_in_frame w frame s) = Ok (0, [])) /\
  (USE_YOLO w = true -> yolo_detect_humans w (detects s) frame = Ok [] ->
   snd (detect_humans_in_frame w frame s) = Ok (0, [])).
Proof.
  rewrite detect_humans_in_frame_eq. cbv zeta.
  split; [|split].
  - destruct (detect_body w (detects s) frame) as [v|e]; simpl; eauto.
  - intros e He. now rewrite He.
  - intros Hy Hnone. unfold detect_body. now rewrite Hy, Hnone.
Qed.

End Detector.

Lemma detect_humans_in_frame_total_witness :
  snd (detect_humans_in_frame (timeout_world 2) still (MkSys [] 0 1 [])) = Ok (0, []) /\
  snd (detect_humans_in_frame (with_faults (quiet_world 2) (fun _ _ => Ok []) (fun _ => None)
                                 false (fun _ => None)) still boot) = Ok (0, []).
Proof.
  split.
  - apply (proj1 (proj2 (detect_humans_in_frame_total (timeout_world 2) still (MkSys [] 0 1 [])))
             (Raise "TimeoutError" "detector timed out")).
    reflexivity.
  - apply (proj2 (proj2 (detect_humans_in_frame_total
                           (with_faults (quiet_world 2) (fun _ _ => Ok []) (fun _ => None)
                              false (fun _ => None)) still boot))); reflexivity.
Defined.

(** ** One iteration of the monitor loop *)

Section LoopBody.
Variable w : World.

(** The second half of the loop body, from the reading of the clock on,
    executed symbolically. *)
Lemma body_tail_eq (motion : bool) (thresh : Mat) (c : nat) (lmt' : Q) (hp' : bool)
  (s : Sys) :
  (now <- time_time w ;;
   let time_without_motion := (now - lmt')%Q in
   let risk_status := analyze_drowning_risk hp' motion time_without_motion in
   print ("Status: " ++ risk_status) ;;
   (if str_in "ALERT" risk_status then
      log_alert w "DROWNING_ALERT" (MkDetails risk_status time_without_motion) ;;
      if SOUND_AVAILABLE w
      then try_except (winsound_Beep_call w (S c) 2000 500) (fun _ => ret tt)
      else ret tt
    else ret tt) ;;
   emit (Imshow "Motion Detection" thresh) ;;
   ret (lmt', hp')) s =
  let twm := (clock w (ticks s) - lmt')%Q in
  let st := analyze_drowning_risk hp' motion twm in
  let tr := trace s ++ [Print ("Status: " ++ st)] in
  if str_in "ALERT" st then
    match sqlite_fault w (length (alerts s)) with
    | Some e => (MkSys tr (S (ticks s)) (detects s) (alerts s), Err e)
    | None =>
        (MkSys (tr ++ (if SOUND_AVAILABLE w then [Beep 2000 500] else [])
                   ++ [Imshow "Motion Detection" thresh])
               (S (ticks s)) (detects s)
               (alerts s ++ [("DROWNING_ALERT", MkDetails st twm)]),
         Ok (lmt', hp'))
    end
  else
    (MkSys (tr ++ [Imshow "Motion Detection" thresh]) (S (ticks s)) (detects s) (alerts s),
     Ok (lmt', hp')).
Proof.
  unfold bind, time_time, ret, print, emit, log_alert, try_except,
    winsound_Beep_call, lift.
  cbn -[analyze_drowning_risk str_in String.append].
  destruct (str_in "ALERT"
              (analyze_drowning_risk hp' motion (clock w (ticks s) - lmt'))).
  - cbn -[analyze_drowning_risk str_in String.append].
    destruct (sqlite_fault w (length (alerts s))); [reflexivity|].
    destruct (SOUND_AVAILABLE w); cbn -[analyze_drowning_risk str_in String.append].
    + destruct (winsound_Beep w (S c));
        cbn -[analyze_drowning_risk str_in String.append];
        rewrite <- ?app_assoc; reflexivity.
    + reflexivity.
  - reflexivity.
Qed.

(** The loop body, executed symbolically. *)
Lemma loop_body_eq (frame1 frame2 : Frame) (lmt : Q) (c : nat) (hp : bool) (s : Sys) :
  loop_body w frame1 frame2 lmt c hp s =
    match detect_motion frame1 frame2 with
    | Err e => (s, Err e)
    | Ok (motion, thresh) =>
        let sampling := S c mod 30 =? 0 in
        let t1 := if motion then S (ticks s) else ticks s in
        let lmt' := if motion then clock w (ticks s) else lmt in
        let hp' := if sampling then 0 <? fst (detected w (detects s) frame2) else hp in
        let d' := if sampling then S (detects s) else detects s in
        let twm := (clock w t1 - lmt')%Q in
        let st := analyze_drowning_risk hp' motion twm in
        let tr := trace s
                  ++ (if sampling then detection_events w (detects s) frame2 else [])
                  ++ [Print ("Status: " ++ st)] in
        if str_in "ALERT" st then
          match sqlite_fault w (length (alerts s)) with
          | Some e => (MkSys tr (S t1) d' (alerts s), Err e)
          | None =>
              (MkSys (tr ++ (if SOUND_AVAILABLE w then [Beep 2000 500] else [])
                         ++ [Imshow "Motion Detection" thresh])
                     (S t1) d' (alerts s ++ [("DROWNING_ALERT", MkDetails st twm)]),
               Ok (lmt', hp'))
          end
        else
          (MkSys (tr ++ [Imshow "Motion Detection" thresh]) (S t1) d' (alerts s),
           Ok (lmt', hp'))
    end.
Proof.
  unfold loop_body.
  unfold bind at 1. unfold lift at 1.
  destruct (detect_motion frame1 frame2) as [[motion thresh]|e]; [|reflexivity].
  cbv zeta.
  destruct (S c mod 30 =? 0) eqn:Hs; destruct motion.
  - unfold bind at 1. unfold time_time at 1. cbv beta iota.
    unfold bind at 1. unfold bind at 1. rewrite detect_humans_in_frame_eq.
    cbn [detects ticks trace alerts]. cbv zeta.
    unfold detected, detection_events.
    destruct (detect_body w (detects s) frame2) as [[n ds]|e]; cbv beta iota;
      unfold ret at 1; cbv beta iota;
      (etransitivity; [apply body_tail_eq|]);
      cbn -[analyze_drowning_risk str_in String.append Nat.modulo];
      rewrite <- ?app_assoc; reflexivity.
  - unfold bind at 1. unfold ret at 1. cbv beta iota.
    unfold bind at 1. unfold bind at 1. rewrite detect_humans_in_frame_eq.
    cbn [detects ticks trace alerts]. cbv zeta.
    unfold detected, detection_events.
    destruct (detect_body w (detects s) frame2) as [[n ds]|e]; cbv beta iota;
      unfold ret at 1; cbv beta iota;
      (etransitivity; [apply body_tail_eq|]);
      cbn -[analyze_drowning_risk str_in String.append Nat.modulo];
      rewrite <- ?app_assoc; reflexivity.
  - unfold bind at 1. unfold time_time at 1. cbv beta iota.
    unfold bind at 1. unfold ret at 1. cbv beta iota.
    etransitivity; [apply body_tail_eq|]. reflexivity.
  - unfold bind at 1. unfold ret at 1. cbv beta iota.
    unfold bind at 1. unfold ret at 1. cbv beta iota.
    etransitivity; [apply body_tail_eq|]. reflexivity.
Qed.
End LoopBody.

(** ** Observations *)

Section Observations.
Variable w : World.

Lemma statuses_app (a b : list Event) : statuses (a ++ b) = statuses a ++ statuses b.
Proof. apply flat_map_app. Qed.

Lemma status_of_status_line (st : string) : status_of (Print ("Status: " ++ st)) = [st].
Proof. reflexivity. Qed.

Lemma detect_frames_from_app (a b : list Event) (n : nat) :
  detect_frames_from n (a ++ b) =
    detect_frames_from n a ++ detect_frames_from (n + length (statuses a)) b.
Proof.
  revert n. induction a as [|e a IH]; intros n; simpl.
  - now rewrite Nat.add_0_r.
  - destruct e; simpl; rewrite IH; simpl;
      rewrite ?length_app, ?Nat.add_0_r, ?Nat.add_assoc; reflexivity.
Qed.

Lemma statuses_detection_events (n : nat) (frame : Frame) :
  statuses (detection_events w n frame) = [].
Proof. unfold detection_events. destruct (detect_body w n frame); reflexivity. Qed.

Lemma detect_frames_detection_events (k n : nat) (frame : Frame) :
  detect_frames_from k (detection_events w n frame) = [S k].
Proof. unfold detection_events. destruct (detect_body w n frame); reflexivity. Qed.

Lemma view_print (line : string) (s : Sys) :
  status_of (Print line) = [] ->
  view (fst (print line s)) = view s.
Proof.
  intros Hline. unfold view, print, emit; simpl.
  rewrite statuses_app. unfold detect_frames. rewrite detect_frames_from_app.
  cbn [statuses flat_map detect_frames_from]. rewrite Hline.
  now rewrite !app_nil_r.
Qed.

End Observations.

(** ** Runs of the monitor *)

Section Runs.
Variable w : World.

Lemma view_after_status (s : Sys) (sampling : bool) (frame : Frame) (st : string)
  (tail : list Event) (t d : nat) (rows : list Row) :
  statuses tail = [] -> detect_frames_from (S (length (statuses (trace s)))) tail = [] ->
  view (MkSys ((trace s ++ (if sampling then detection_events w (detects s) frame else [])
                 ++ [Print ("Status: " ++ st)]) ++ tail) t d rows) =
    MkView (seen (view s) ++ [st])
           (sampled (view s) ++ (if sampling then [S (length (seen (view s)))] else []))
           rows.
Proof.
  intros Htail Hdet.
  assert (Hst : statuses [Print ("Status: " ++ st)] = [st]) by reflexivity.
  assert (Hdf : forall k, detect_frames_from k [Print ("Status: " ++ st)] = [])
    by reflexivity.
  unfold view; cbn [trace alerts seen sampled]. f_equal.
  - rewrite !statuses_app, Htail, Hst, app_nil_r.
    destruct sampling; [rewrite statuses_detection_events|]; reflexivity.
  - unfold detect_frames.
    rewrite !detect_frames_from_app, !statuses_app, Hdf, Hst, app_nil_r.
    destruct sampling.
    + rewrite statuses_detection_events, detect_frames_detection_events.
      cbn [length app]. rewrite ?Nat.add_0_r, ?Nat.add_0_l.
      rewrite length_app. cbn [length].
      replace (length (statuses (trace s)) + 1) with (S (length (statuses (trace s)))) by lia.
      now rewrite Hdet, !app_nil_r.
    + cbn [length app detect_frames_from statuses flat_map].
      rewrite ?Nat.add_0_r, ?Nat.add_0_l.
      rewrite length_app. cbn [length].
      replace (length (statuses (trace s)) + 1) with (S (length (statuses (trace s)))) by lia.
      now rewrite Hdet, !app_nil_r.
Qed.

(** Every iteration has one of the three outcomes. *)
Lemma loop_body_outcome (frame1 frame2 : Frame) (lmt : Q) (c : nat) (hp : bool) (s : Sys) :
  body_outcome w c hp (view s)
    (view (fst (loop_body w frame1 frame2 lmt c hp s)))
    (snd (loop_body w frame1 frame2 lmt c hp s)).
Proof.
  rewrite loop_body_eq.
  destruct (detect_motion frame1 frame2) as [[motion thresh]|e]; [|apply frame_rejected].
  cbv zeta.
  set (sampling := S c mod 30 =? 0).
  set (hp' := if sampling then 0 <? fst (detected w (detects s) frame2) else hp).
  set (lmt' := if motion then clock w (ticks s) else lmt).
  set (twm := (clock w (if motion then S (ticks s) else ticks s) - lmt')%Q).
  assert (Hkeep : S c mod 30 <> 0 -> hp' = hp).
  { intros Hne. unfold hp', sampling.
    destruct (Nat.eqb_spec (S c mod 30) 0); [contradiction | reflexivity]. }
  fold (is_alert (analyze_drowning_risk hp' motion twm)).
  destruct (is_alert (analyze_drowning_risk hp' motion twm)) eqn:Ha.
  - destruct (sqlite_fault w (length (alerts s))) as [e|] eqn:Hf; cbn [fst snd].
    + rewrite <- (app_nil_r (_ ++ _ ++ [Print _])).
      rewrite view_after_status by reflexivity.
      apply alert_lost; assumption.
    + rewrite view_after_status.
      * pose proof (frame_evaluated w c hp (view s) motion twm lmt' hp' Hkeep) as H.
        rewrite Ha in H. apply H. intros _. exact Hf.
      * destruct (SOUND_AVAILABLE w); reflexivity.
      * destruct (SOUND_AVAILABLE w); reflexivity.
  - cbn [fst snd]. rewrite view_after_status by reflexivity.
    pose proof (frame_evaluated w c hp (view s) motion twm lmt' hp' Hkeep) as H.
    rewrite Ha in H. rewrite app_nil_r in H. apply H. discriminate.
Qed.

(** Invariant rule for the loop: an invariant of the loop head that every
    iteration preserves gives a postcondition of the loop. *)
Lemma monitor_loop_rule (Inv : nat -> bool -> View -> Prop)
  (Post : View -> result unit -> Prop) :
  (forall c hp v, Inv c hp v -> Post v (Ok tt)) ->
  (forall c hp v v' r, Inv c hp v -> body_outcome w c hp v v' r ->
     match r with
     | Ok (_, hp') => Inv (S c) hp' v'
     | Err e => Post v' (Err e)
     end) ->
  forall cap frame1 frame2 lmt c hp s,
    Inv c hp (view s) ->
    Post (view (fst (monitor_loop w cap frame1 frame2 lmt c hp s)))
         (snd (monitor_loop w cap frame1 frame2 lmt c hp s)).
Proof.
  intros Hexit Hstep.
  assert (Hbody : forall frame1 frame2 lmt c hp s,
             Inv c hp (view s) ->
             match loop_body w frame1 frame2 lmt c hp s with
             | (s', Ok (_, hp')) => Inv (S c) hp' (view s')
             | (s', Err e) => Post (view s') (Err e)
             end).
  { intros frame1 frame2 lmt c hp s HI.
    pose proof (loop_body_outcome frame1 frame2 lmt c hp s) as Hb.
    destruct (loop_body w frame1 frame2 lmt c hp s) as [s' r]. cbn [fst snd] in Hb.
    exact (Hstep _ _ _ _ _ HI Hb). }
  induction cap as [|frame3 cap IH]; intros frame1 frame2 lmt c hp s HI;
    cbn [monitor_loop]; (destruct (isOpened w c); [|exact (Hexit _ _ _ HI)]);
    unfold bind; specialize (Hbody frame1 frame2 lmt c hp s HI);
    destruct (loop_body w frame1 frame2 lmt c hp s) as [s' [[lmt' hp']|e]];
    cbn [fst snd]; try exact Hbody.
  - exact (Hexit _ _ _ Hbody).
  - destruct (Z.land (waitKey w (S c)) 255 =? 113)%Z.
    + exact (Hexit _ _ _ Hbody).
    + apply IH. exact Hbody.
Qed.

Lemma bind_print {A} (line : string) (k : unit -> M A) (s : Sys) :
  bind (print line) k s = k tt (fst (print line s)).
Proof. reflexivity. Qed.

Lemma main_after_banner :
  exists s0, view s0 = empty_view /\
    main w boot =
      match video w with
      | frame1 :: frame2 :: cap =>
          (print "AI Drowning Detection System Started" ;;
           print "Press 'q' to quit" ;;
           last_motion_time <- time_time w ;;
           monitor_loop w cap frame1 frame2 last_motion_time 0 false ;;
           print "System stopped") s0
      | _ => print "Error: Cannot read video feed" s0
      end.
Proof.
  unfold main.
  destruct (argv w) as [|a [|video_path rest]]; rewrite bind_print;
    match goal with |- context [fst ?x] => exists (fst x) end;
    (split; [reflexivity|]);
    destruct (video w) as [|frame1 [|frame2 cap]]; reflexivity.
Qed.

(** The same rule for a whole run of [main]. *)
Lemma run_rule (Inv : nat -> bool -> View -> Prop) (Post : View -> result unit -> Prop) :
  (forall c hp v, Inv c hp v -> Post v (Ok tt)) ->
  (forall c hp v v' r, Inv c hp v -> body_outcome w c hp v v' r ->
     match r with
     | Ok (_, hp') => Inv (S c) hp' v'
     | Err e => Post v' (Err e)
     end) ->
  Inv 0 false empty_view ->
  Post (view (fst (run w))) (snd (run w)).
Proof.
  intros Hexit Hstep Hinit. unfold run.
  destruct main_after_banner as (s0 & H0 & ->).
  destruct (video w) as [|frame1 [|frame2 cap]].
  - rewrite view_print by reflexivity. rewrite H0.
    exact (Hexit _ _ _ Hinit).
  - rewrite view_print by reflexivity. rewrite H0.
    exact (Hexit _ _ _ Hinit).
  - rewrite !bind_print. unfold bind, time_time. cbv beta iota.
    set (s1 := MkSys _ _ _ _).
    assert (H1 : view s1 = empty_view).
    { unfold s1, view. cbn [trace alerts].
      rewrite <- H0.
      change (view (fst (print "Press 'q' to quit"
                (fst (print "AI Drowning Detection System Started" s0)))) = view s0).
      now rewrite !view_print by reflexivity. }
    clearbody s1.
    pose proof (monitor_loop_rule Inv Post Hexit Hstep cap frame1 frame2
                  (clock w (ticks (fst (print "Press 'q' to quit"
                     (fst (print "AI Drowning Detection System Started" s0))))))
                  0 false s1) as Hloop.
    rewrite H1 in Hloop. specialize (Hloop Hinit).
    destruct (monitor_loop w cap frame1 frame2 _ 0 false s1) as [s' [[]|e]];
      cbn [fst snd] in *.
    + rewrite view_print by reflexivity. exact Hloop.
    + exact Hloop.
Qed.

End Runs.

(** ** Sampling of the detector *)

Lemma sample_points_S (c : nat) :
  sample_points (S c) = sample_points c ++ (if S c mod 30 =? 0 then [S c] else []).
Proof.
  unfold sample_points.
  pose proof (Nat.div_mod_eq c 30) as Hc.
  pose proof (Nat.div_mod_eq (S c) 30) as HSc.
  pose proof (Nat.mod_upper_bound c 30 ltac:(discriminate)) as Hlt.
  pose proof (Nat.mod_upper_bound (S c) 30 ltac:(discriminate)) as HltS.
  destruct (Nat.eqb_spec (S c mod 30) 0) as [Hz|Hnz].
  - assert (Hq : S c / 30 = S (c / 30)).
    { revert Hc HSc Hlt HltS Hz.
      generalize (c / 30), (c mod 30), (S c / 30), (S c mod 30). lia. }
    rewrite Hq, seq_S, map_app. cbn [map]. do 2 f_equal.
    revert Hc HSc Hlt HltS Hz Hq.
    generalize (c / 30), (c mod 30), (S c / 30), (S c mod 30). lia.
  - assert (Hq : S c / 30 = c / 30).
    { revert Hc HSc Hlt HltS Hnz.
      generalize (c / 30), (c mod 30), (S c / 30), (S c mod 30). lia. }
    now rewrite Hq, app_nil_r.
Qed.

(** C4 (as amended): over a run that evaluates N frames, the detector is
    called exactly on the frames whose number, counted from 1, is a
    multiple of 30, hence exactly floor(N / 30) times; this holds for
    every run, however it ends. *)
Theorem detector_sampling (w : World) :
  let tr := trace (fst (run w)) in
  detect_frames tr = sample_points (length (statuses tr)) /\
  length (detect_frames tr) = length (statuses tr) / 30.
Proof.
  cbv zeta.
  assert (H : sampled (view (fst (run w))) = sample_points (length (seen (view (fst (run w)))))).
  { apply (run_rule w
             (fun c _ v => c = length (seen v) /\ sampled v = sample_points c)
             (fun v _ => sampled v = sample_points (length (seen v)))).
    - intros c hp v [Hc Hs]. now subst c.
    - intros c hp v v' r [Hc Hs] Hb.
      destruct Hb as [e | motion twm lmt' hp' Hkeep Hsink | motion twm hp' e Hkeep Ha Hf];
        cbn [seen sampled].
      + now subst c.
      + rewrite length_app, Nat.add_1_r, <- Hc. split; [reflexivity|].
        now rewrite sample_points_S, Hs.
      + rewrite length_app, Nat.add_1_r, <- Hc.
        now rewrite sample_points_S, Hs.
    - split; reflexivity. }
  cbn [view seen sampled] in H. split; [exact H|].
  rewrite H. unfold sample_points. now rewrite length_map, length_seq.
Qed.

(** C4 as stated (floor(total_frames / sample_interval) + 1 calls, the first
    one on the very first frame) fails on a video of 31 frames: 30 frames
    are evaluated, the detector is called once, on frame 30, and not on the
    first frame. *)
Lemma detector_sampling_first_frame :
  let tr := trace (fst (run (quiet_world 31))) in
  length (video (quiet_world 31)) = 31 /\
  length (statuses tr) = 30 /\
  detect_frames tr = [30] /\
  length (detect_frames tr) <> 30 / 30 + 1 /\
  length (detect_frames tr) <> 31 / 30 + 1 /\
  ~ In 1 (detect_frames tr).
Proof.
  vm_compute. repeat split; try discriminate.
  intros [H|[]]; discriminate H.
Qed.

(** ** Alerts *)

(** Every frame whose status is an ALERT is stored as a row, in order,
    unless the run was ended by the exception of the insertion for the last
    frame evaluated. *)
Lemma alert_ledger (w : World) :
  let s := fst (run w) in
  alert_statuses (alerts s) = filter is_alert (statuses (trace s)) \/
  exists e st sts,
    snd (run w) = Err e /\
    sqlite_fault w (length (alerts s)) = Some e /\
    statuses (trace s) = sts ++ [st] /\
    is_alert st = true /\
    alert_statuses (alerts s) = filter is_alert sts.
Proof.
  cbv zeta.
  change (alerts (fst (run w))) with (stored (view (fst (run w)))).
  change (statuses (trace (fst (run w)))) with (seen (view (fst (run w)))).
  apply (run_rule w
           (fun _ _ v => alert_statuses (stored v) = filter is_alert (seen v))
           (fun v r =>
              alert_statuses (stored v) = filter is_alert (seen v) \/
              exists e st sts,
                r = Err e /\ sqlite_fault w (length (stored v)) = Some e /\
                seen v = sts ++ [st] /\ is_alert st = true /\
                alert_statuses (stored v) = filter is_alert sts)).
  - intros c hp v HI. now left.
  - intros c hp v v' r HI Hb.
    destruct Hb as [e | motion twm lmt' hp' Hkeep Hsink | motion twm hp' e Hkeep Ha Hf];
      cbn [seen sampled stored].
    + now left.
    + unfold alert_statuses in *. rewrite map_app, filter_app.
      apply f_equal2; [exact HI|].
      cbn [filter]. destruct (is_alert (analyze_drowning_risk hp' motion twm)); reflexivity.
    + right. exists e, (analyze_drowning_risk hp' motion twm), (seen v). auto.
  - reflexivity.
Qed.

(** C1 (as amended): alerts are level-triggered.  As long as SQLite accepts
    the insertions, every evaluated frame whose status is an ALERT appends
    one row to the alerts table, so an unbroken ALERT episode of k frames
    appends k rows. *)
Theorem alerts_level_triggered (w : World) :
  (forall n, sqlite_fault w n = None) ->
  let s := fst (run w) in
  alert_statuses (alerts s) = filter is_alert (statuses (trace s)) /\
  length (alerts s) = length (filter is_alert (statuses (trace s))).
Proof.
  intros Hsink. cbv zeta.
  assert (H : alert_statuses (alerts (fst (run w)))
              = filter is_alert (statuses (trace (fst (run w))))).
  { destruct (alert_ledger w) as [H | (e & st & sts & _ & Hf & _)]; [exact H|].
    rewrite Hsink in Hf. discriminate Hf. }
  split; [exact H|].
  rewrite <- H. unfold alert_statuses. now rewrite length_map.
Qed.

Lemma alerts_level_triggered_witness :
  alert_statuses (alerts (fst (run (quiet_world 33)))) = [ALERT; ALERT; ALERT].
Proof.
  apply (proj1 (alerts_level_triggered (quiet_world 33) (fun n => eq_refl))).
Defined.

(** C1 as stated (one alert per unbroken ALERT episode) fails on a video of
    33 still frames with a human found on frame 30: frames 30, 31 and 32
    form one episode, and three rows are stored. *)
Lemma alerts_not_edge_triggered :
  let s := fst (run (quiet_world 33)) in
  skipn 29 (statuses (trace s)) = [ALERT; ALERT; ALERT] /\
  episodes (statuses (trace s)) = 1 /\
  length (alerts s) = 3 /\
  length (alerts s) <> episodes (statuses (trace s)).
Proof. vm_compute. repeat split. discriminate. Qed.

(** ** Failures of the sound device and of the database *)

Section Beep.
Variable w : World.
Variable beep : nat -> option PyExn.

Lemma loop_body_beep frame1 frame2 lmt c hp s :
  loop_body (with_beep w beep) frame1 frame2 lmt c hp s = loop_body w frame1 frame2 lmt c hp s.
Proof. rewrite !loop_body_eq. reflexivity. Qed.

Lemma monitor_loop_beep cap : forall frame1 frame2 lmt c hp s,
  monitor_loop (with_beep w beep) cap frame1 frame2 lmt c hp s =
  monitor_loop w cap frame1 frame2 lmt c hp s.
Proof.
  induction cap as [|frame3 cap IH]; intros; cbn [monitor_loop];
    change (isOpened (with_beep w beep) c) with (isOpened w c);
    (destruct (isOpened w c); [|reflexivity]);
    unfold bind; rewrite loop_body_beep;
    destruct (loop_body w frame1 frame2 lmt c hp s) as [s' [[lmt' hp']|e]];
    try reflexivity.
  change (waitKey (with_beep w beep) (S c)) with (waitKey w (S c)).
  destruct (Z.land (waitKey w (S c)) 255 =? 113)%Z; [reflexivity|apply IH].
Qed.

Lemma run_beep : run (with_beep w beep) = run w.
Proof.
  unfold run, main.
  change (argv (with_beep w beep)) with (argv w).
  change (video (with_beep w beep)) with (video w).
  unfold bind.
  destruct (match argv w with
            | _ :: video_path :: _ => print ("Using video file: " ++ video_path)
            | _ => print "Using webcam"
            end boot) as [s0 [[]|e]]; [|reflexivity].
  destruct (video w) as [|frame1 [|frame2 cap]]; try reflexivity.
  cbn [print emit time_time]. change (clock (with_beep w beep)) with (clock w).
  now rewrite monitor_loop_beep.
Qed.

End Beep.

(** C5 (as amended): a failure of [winsound.Beep] is swallowed: it changes
    nothing in the run.  A failure of [log_alert] is not handled: it leaves
    [main] as an exception, the frame whose alert was being stored is the
    last one evaluated, and its alert is not stored; every other ALERT
    frame of the run has its row. *)
Theorem beep_swallowed_sink_fatal (w : World) :
  (forall beep, run (with_beep w beep) = run w) /\
  (let s := fst (run w) in
   alert_statuses (alerts s) = filter is_alert (statuses (trace s)) \/
   exists e st sts,
     snd (run w) = Err e /\
     sqlite_fault w (length (alerts s)) = Some e /\
     statuses (trace s) = sts ++ [st] /\
     is_alert st = true /\
     alert_statuses (alerts s) = filter is_alert sts).
Proof.
  split.
  - intros beep. apply run_beep.
  - apply alert_ledger.
Qed.

(** C5 as stated (a failure to persist an alert never reaches the control
    flow of the loop) fails when SQLite refuses the insertion: on the 33
    frame video whose frames 30 to 32 are ALERT frames, [main] ends with
    the SQLite exception after frame 30, nothing is stored, and frames 31
    and 32 are never evaluated. *)
Lemma sink_failure_stops_monitor :
  let s := fst (run (locked_world 33)) in
  snd (run (locked_world 33)) = Err (Raise "sqlite3.OperationalError" "database is locked") /\
  length (statuses (trace s)) = 30 /\
  alerts s = [] /\
  length (statuses (trace (fst (run (quiet_world 33))))) = 32 /\
  snd (run (locked_world 33)) <> Ok tt.
Proof. vm_compute. repeat split. discriminate. Qed.

(** ** Presence *)

(** C10: [human_present] starts as [False] and an iteration changes it only
    when its frame number is a multiple of 30; so the status printed for
    each of the first 29 frames is "No human detected", whatever the frames
    show. *)
Theorem first_frames_no_subject (w : World) :
  (forall frame1 frame2 lmt c hp s,
     S c mod 30 <> 0 ->
     match snd (loop_body w frame1 frame2 lmt c hp s) with
     | Ok (_, hp') => hp' = hp
     | Err _ => True
     end) /\
  (forall frame1 frame2 lmt c s motion thresh,
     S c mod 30 <> 0 ->
     detect_motion frame1 frame2 = Ok (motion, thresh) ->
     exists s' lmt',
       loop_body w frame1 frame2 lmt c false s = (s', Ok (lmt', false)) /\
       statuses (trace s') = statuses (trace s) ++ [NO_HUMAN]) /\
  Forall (eq NO_HUMAN) (firstn 29 (statuses (trace (fst (run w))))).
Proof.
  split; [|split].
  - intros frame1 frame2 lmt c hp s Hne.
    pose proof (loop_body_outcome w frame1 frame2 lmt c hp s) as Hb.
    destruct (snd (loop_body w frame1 frame2 lmt c hp s)) as [[lmt' hp']|e]; [|exact I].
    inversion Hb; subst; auto.
  - intros frame1 frame2 lmt c s motion thresh Hne Hmotion.
    rewrite loop_body_eq, Hmotion. cbv zeta.
    destruct (Nat.eqb_spec (S c mod 30) 0) as [Hz|_]; [contradiction|].
    rewrite analyze_absent.
    change (str_in "ALERT" NO_HUMAN) with false. cbv iota.
    eexists. eexists. split; [reflexivity|].
    cbn [trace]. rewrite !statuses_app. cbn. now rewrite app_nil_r.
  - change (statuses (trace (fst (run w)))) with (seen (view (fst (run w)))).
    apply (run_rule w
             (fun c hp v => c = length (seen v) /\ (c < 30 -> hp = false) /\
                            Forall (eq NO_HUMAN) (firstn 29 (seen v)))
             (fun v _ => Forall (eq NO_HUMAN) (firstn 29 (seen v)))).
    + intros c hp v (_ & _ & H). exact H.
    + intros c hp v v' r (Hc & Hhp & Hall) Hb.
      assert (Hgrow : forall hp' motion twm,
                 (S c mod 30 <> 0 -> hp' = hp) ->
                 Forall (eq NO_HUMAN)
                   (firstn 29 (seen v ++ [analyze_drowning_risk hp' motion twm]))).
      { intros hp' motion twm Hkeep. rewrite firstn_app. apply Forall_app. split; [exact Hall|].
        rewrite <- Hc. destruct (Nat.lt_ge_cases c 29) as [Hlt|Hge].
        - assert (Hsmall : S c mod 30 = S c) by (apply Nat.mod_small; lia).
          rewrite Hkeep by (rewrite Hsmall; discriminate).
          rewrite Hhp by lia. rewrite analyze_absent.
          destruct (29 - c) as [|k] eqn:Hk; [lia|]. cbn [firstn]. rewrite firstn_nil.
          constructor; [reflexivity|constructor].
        - replace (29 - c) with 0 by lia. constructor. }
      destruct Hb as [e | motion twm lmt' hp' Hkeep Hsink | motion twm hp' e Hkeep Ha Hf];
        cbn [seen].
      * exact Hall.
      * split; [rewrite length_app, Nat.add_1_r; now f_equal|].
        split; [|now apply Hgrow].
        intros Hlt. rewrite Hkeep.
        -- apply Hhp. lia.
        -- rewrite Nat.mod_small by lia. discriminate.
      * now apply Hgrow.
    + split; [reflexivity|]. split; [reflexivity|constructor].
Qed.

Lemma first_frames_no_subject_witness :
  match snd (loop_body (quiet_world 3) still still 0 0 true boot) with
  | Ok (_, hp') => hp' = true
  | Err _ => True
  end /\
  exists s' lmt',
    loop_body (quiet_world 3) still still 0 0 false boot = (s', Ok (lmt', false)) /\
    statuses (trace s') = [] ++ [NO_HUMAN].
Proof.
  split.
  - apply (proj1 (first_frames_no_subject (quiet_world 3)) still still 0%Q 0 true boot).
    discriminate.
  - apply (proj1 (proj2 (first_frames_no_subject (quiet_world 3)))
             still still 0%Q 0 boot false [[0%Z]]).
    + discriminate.
    + reflexivity.
Defined.

(** C2 (as amended): when the detector fails on a sampled frame,
    [detect_humans_in_frame] returns the count 0 and [human_present] is set
    to [False], whatever it was before; the status of that frame is
    "No human detected". *)
Theorem detector_failure_clears_presence (w : World) (frame1 frame2 : Frame) (lmt : Q)
  (c : nat) (hp : bool) (s : Sys) (e : PyExn) (motion : bool) (thresh : Mat) :
  S c mod 30 = 0 ->
  detect_motion frame1 frame2 = Ok (motion, thresh) ->
  detect_body w (detects s) frame2 = Err e ->
  exists s' lmt',
    loop_body w frame1 frame2 lmt c hp s = (s', Ok (lmt', false)) /\
    statuses (trace s') = statuses (trace s) ++ [NO_HUMAN].
Proof.
  intros Hsample Hmotion Hfail.
  rewrite loop_body_eq, Hmotion. cbv zeta.
  rewrite Hsample. cbn [Nat.eqb].
  unfold detected, detection_events. rewrite Hfail. cbn [fst Nat.ltb Nat.leb].
  rewrite analyze_absent.
  change (str_in "ALERT" NO_HUMAN) with false. cbv iota.
  eexists. eexists. split; [reflexivity|].
  cbn [trace]. rewrite !statuses_app. cbn. now rewrite app_nil_r.
Qed.

Lemma detector_failure_clears_presence_witness :
  exists s' lmt',
    loop_body (timeout_world 2) still still 0 29 true (MkSys [] 0 1 []) = (s', Ok (lmt', false)) /\
    statuses (trace s') = [] ++ [NO_HUMAN].
Proof.
  apply (detector_failure_clears_presence (timeout_world 2) still still 0%Q 29 true
           (MkSys [] 0 1 []) (Raise "TimeoutError" "detector timed out") false [[0%Z]]);
    reflexivity.
Defined.

(** C2 as stated (a detector failure leaves [human_present] unchanged, so a
    run that once confirmed a human never reports NO_SUBJECT) fails on a
    video of 62 still frames whose detector finds a human on frame 30 and
    times out afterwards: frames 30 to 59 are ALERT frames, and frame 60,
    where the detector fails, is reported as "No human detected". *)
Lemma detector_failure_reports_no_subject :
  let sts := statuses (trace (fst (run (timeout_world 62)))) in
  nth_error sts 29 = Some ALERT /\
  nth_error sts 58 = Some ALERT /\
  is_ok (detect_body (timeout_world 62) 1 still) = false /\
  nth_error sts 59 = Some NO_HUMAN /\
  snd (loop_body (timeout_world 62) still still 0 59 true (MkSys [] 0 1 []))
    = Ok (0%Q, false).
Proof. vm_compute. repeat split. Qed.

(** ** Frames of different sizes *)

(** C6 (as amended): two consecutive frames of different dimensions make
    [detect_motion] raise [cv2.error]; the loop has no handler for it, so
    the exception ends the loop at that iteration with nothing printed or
    stored, whatever frames remain to be read. *)
Theorem mismatched_frames_end_loop (w : World) (cap : list Frame) (frame1 frame2 : Frame)
  (lmt : Q) (c : nat) (hp : bool) (s : Sys) :
  empty frame1 = false -> empty frame2 = false ->
  shape frame1 <> shape frame2 ->
  isOpened w c = true ->
  let e := cv2.error "(-209:Sizes of input arguments do not match) in function 'arithm_op'" in
  detect_motion frame1 frame2 = Err e /\
  monitor_loop w cap frame1 frame2 lmt c hp s = (s, Err e).
Proof.
  intros H1 H2 Hshape Hopen e.
  pose proof (detect_motion_mismatch frame1 frame2 H1 H2 Hshape) as Hm.
  split; [exact Hm|].
  destruct cap; cbn [monitor_loop]; rewrite Hopen; unfold bind;
    rewrite loop_body_eq, Hm; reflexivity.
Qed.

Lemma mismatched_frames_end_loop_witness :
  monitor_loop resized_world [ [[px 7; px 7]]; [[px 7; px 7]] ] still [[px 7; px 7]] 0 1 false boot
  = (boot, Err (cv2.error "(-209:Sizes of input arguments do not match) in function 'arithm_op'")).
Proof.
  apply (mismatched_frames_end_loop resized_world [ [[px 7; px 7]]; [[px 7; px 7]] ]
           still [[px 7; px 7]] 0%Q 1 false boot);
    try reflexivity.
  discriminate.
Defined.

(** C6 as stated (the loop logs the error and goes on with the next frame)
    fails on a video whose third frame is wider than the first two: after
    the first pair of frames, [main] ends with the [cv2.error] of the second
    pair, and the two remaining pairs, whose sizes agree, are never
    evaluated. *)
Lemma mismatched_frames_abort_run :
  let s := fst (run resized_world) in
  length (video resized_world) = 5 /\
  snd (run resized_world)
    = Err (cv2.error "(-209:Sizes of input arguments do not match) in function 'arithm_op'") /\
  length (statuses (trace s)) = 1 /\
  snd (run resized_world) <> Ok tt.
Proof. vm_compute. repeat split. discriminate. Qed.


(** * Further properties *)

(** ** Frame differencing: the mask and the motion flag *)

Section MotionMask.
Local Open Scope Z_scope.

Lemma shape_eqb_eq (s1 s2 : nat * nat) : shape_eqb s1 s2 = true <-> s1 = s2.
Proof.
  destruct s1 as [h1 w1], s2 as [h2 w2]; unfold shape_eqb; cbn [fst snd].
  rewrite andb_true_iff, !Nat.eqb_eq. split.
  - intros [-> ->]. reflexivity.
  - intros H. inversion H. auto.
Qed.

Lemma zipWith_map {A B C} (f : B -> B -> C) (g : A -> B) (a b : list A) :
  zipWith f (map g a) (map g b) = zipWith (fun x y => f (g x) (g y)) a b.
Proof.
  revert b. induction a as [|x a IH]; intros [|y b]; cbn; try reflexivity.
  now rewrite IH.
Qed.

Lemma zipWith_ext {A B C} (f g : A -> B -> C) (a : list A) (b : list B) :
  (forall x y, f x y = g x y) -> zipWith f a b = zipWith g a b.
Proof.
  intros Hfg. revert b. induction a as [|x a IH]; intros [|y b]; cbn; try reflexivity.
  now rewrite Hfg, IH.
Qed.


Lemma length_zipWith {A B C} (f : A -> B -> C) (a : list A) (b : list B) :
  length a = length b -> length (zipWith f a b) = length a.
Proof.
  revert b. induction a as [|x a IH]; intros [|y b] H; cbn in *; try congruence.
  f_equal. apply IH. congruence.
Qed.

Lemma shape_zipWith {A B C} (f : A -> B -> C) (a : list (list A)) (b : list (list B)) :
  shape a = shape b -> shape (zipWith (zipWith f) a b) = shape a.
Proof.
  unfold shape. intros H. inversion H as [[Hlen Hhd]].
  rewrite length_zipWith by assumption. f_equal.
  destruct a as [|r a], b as [|r' b]; cbn in *; try discriminate; try reflexivity.
  now apply length_zipWith.
Qed.

Lemma absdiff_gray (frame1 frame2 : Frame) :
  shape frame1 = shape frame2 ->
  cv2.absdiff (map (map cv2.bgr2gray) frame1) (map (map cv2.bgr2gray) frame2)
  = Ok (gray_diff frame1 frame2).
Proof.
  intros Hsh. unfold cv2.absdiff. rewrite !shape_map.
  rewrite (proj2 (shape_eqb_eq _ _) Hsh). apply (f_equal Ok).
  unfold gray_diff. rewrite zipWith_map. apply zipWith_ext. intros r1 r2.
  now rewrite zipWith_map.
Qed.

(** [detect_motion] on two frames of one size, executed symbolically. *)
Lemma detect_motion_accepts (frame1 frame2 : Frame) :
  empty frame1 = false -> empty frame2 = false -> shape frame1 = shape frame2 ->
  detect_motion frame1 frame2 =
    Ok ((0 <? length (cv2.findContours (motion_mask frame1 frame2)))%nat,
        motion_mask frame1 frame2).
Proof.
  intros H1 H2 Hsh. unfold detect_motion, cv2.cvtColor_BGR2GRAY.
  rewrite H1, H2. cbn [bind_result]. rewrite (absdiff_gray _ _ Hsh). reflexivity.
Qed.

Lemma length_hmax3 (prev : Z) (row : list Z) : length (cv2.hmax3 prev row) = length row.
Proof. revert prev. induction row as [|x row IH]; intros prev; cbn; auto. Qed.

Lemma length_max_into (cur other : list Z) : length (cv2.max_into cur other) = length cur.
Proof. revert other. induction cur as [|x cur IH]; intros other; cbn; auto. Qed.

Lemma length_vmax3 (prev : list Z) (m : Mat) : length (cv2.vmax3 prev m) = length m.
Proof. revert prev. induction m as [|r m IH]; intros prev; cbn; auto. Qed.

Lemma shape_dilate3x3 (m : Mat) : shape (cv2.dilate3x3 m) = shape m.
Proof.
  unfold shape, cv2.dilate3x3. rewrite length_vmax3, length_map. f_equal.
  destruct m as [|r m]; cbn; [reflexivity|].
  now rewrite !length_max_into, length_hmax3.
Qed.

Lemma shape_dilate (m : Mat) (n : nat) : shape (cv2.dilate m n) = shape m.
Proof.
  unfold cv2.dilate. induction n as [|n IH]; cbn; [reflexivity|].
  now rewrite shape_dilate3x3.
Qed.

Lemma bit_max (a b : Z) : bit a -> bit b -> bit (Z.max a b).
Proof. unfold bit. intros [->| ->] [->| ->]; cbn; auto. Qed.

Lemma bit_hd (row : list Z) : Forall bit row -> bit (hd 0 row).
Proof. intros [|x rest Hx _]; cbn; [now left | exact Hx]. Qed.

Lemma Forall_tl {A} (P : A -> Prop) (l : list A) : Forall P l -> Forall P (tl l).
Proof. intros [|x rest _ H]; cbn; [constructor | exact H]. Qed.

Lemma binary_hmax3 (prev : Z) (row : list Z) :
  bit prev -> Forall bit row -> Forall bit (cv2.hmax3 prev row).
Proof.
  revert prev. induction row as [|x row IH]; intros prev Hp Hrow; cbn; [constructor|].
  inversion Hrow as [|? ? Hx Hrest]; subst. constructor.
  - apply bit_max; [exact Hp|]. apply bit_max; [exact Hx | now apply bit_hd].
  - now apply IH.
Qed.

Lemma binary_max_into (cur other : list Z) :
  Forall bit cur -> Forall bit other -> Forall bit (cv2.max_into cur other).
Proof.
  revert other. induction cur as [|x cur IH]; intros other Hc Ho; cbn; [constructor|].
  inversion Hc as [|? ? Hx Hrest]; subst. constructor.
  - apply bit_max; [exact Hx | now apply bit_hd].
  - apply IH; [exact Hrest | now apply Forall_tl].
Qed.

Lemma binary_vmax3 (prev : list Z) (m : Mat) :
  Forall bit prev -> Forall (Forall bit) m -> Forall (Forall bit) (cv2.vmax3 prev m).
Proof.
  revert prev. induction m as [|r m IH]; intros prev Hp Hm; cbn; [constructor|].
  inversion Hm as [|? ? Hr Hrest]; subst. constructor.
  - apply binary_max_into; [now apply binary_max_into|].
    destruct m as [|r' m']; cbn; [constructor|]. now inversion Hrest.
  - now apply IH.
Qed.

Lemma binary_dilate3x3 (m : Mat) : binary_mask m -> binary_mask (cv2.dilate3x3 m).
Proof.
  unfold binary_mask, cv2.dilate3x3. intros Hm.
  apply binary_vmax3; [constructor|].
  induction Hm as [|r m Hr _ IH]; cbn; constructor; [|exact IH].
  apply binary_hmax3; [now left | exact Hr].
Qed.

Lemma binary_dilate (m : Mat) (n : nat) : binary_mask m -> binary_mask (cv2.dilate m n).
Proof.
  intros Hm. unfold cv2.dilate. induction n as [|n IH]; cbn; [exact Hm|].
  now apply binary_dilate3x3.
Qed.

Lemma binary_threshold (m : Mat) : binary_mask (cv2.threshold_BINARY m 25 255).
Proof.
  unfold binary_mask, cv2.threshold_BINARY.
  apply Forall_map, Forall_forall. intros row _.
  apply Forall_map, Forall_forall. intros v _.
  unfold bit. destruct (25 <? v); auto.
Qed.

(** X1: for two frames of one size with at least one pixel, [detect_motion]
    returns a mask of the size of the frames whose pixels are all 0 or
    255. *)
Theorem detect_motion_mask (frame1 frame2 : Frame) :
  empty frame1 = false -> empty frame2 = false -> shape frame1 = shape frame2 ->
  exists motion thresh,
    detect_motion frame1 frame2 = Ok (motion, thresh) /\
    shape thresh = shape frame1 /\
    binary_mask thresh.
Proof.
  intros H1 H2 Hsh. eexists. exists (motion_mask frame1 frame2).
  split; [now apply detect_motion_accepts|]. split.
  - unfold motion_mask. rewrite shape_dilate. unfold cv2.threshold_BINARY.
    rewrite shape_map. unfold gray_diff. now apply shape_zipWith.
  - unfold motion_mask. apply binary_dilate, binary_threshold.
Qed.

Lemma detect_motion_mask_witness :
  exists motion thresh,
    detect_motion [[px 0; px 0]; [px 0; px 9]] [[px 0; px 0]; [px 0; px 200]]
      = Ok (motion, thresh) /\
    shape thresh = (2%nat, 2%nat) /\
    binary_mask thresh.
Proof.
  apply (detect_motion_mask [[px 0; px 0]; [px 0; px 9]] [[px 0; px 0]; [px 0; px 200]]);
    reflexivity.
Defined.

End MotionMask.

Section MotionFlag.
Local Open Scope Z_scope.

Lemma existsb_hmax3 (prev : Z) (row : list Z) :
  existsb (fun v => 0 <? v) row = true ->
  existsb (fun v => 0 <? v) (cv2.hmax3 prev row) = true.
Proof.
  revert prev. induction row as [|x row IH]; intros prev H; cbn in *; [discriminate|].
  apply orb_true_iff in H. apply orb_true_iff. destruct H as [Hx|Hrest].
  - left. apply Z.ltb_lt in Hx. apply Z.ltb_lt. lia.
  - right. now apply IH.
Qed.

Lemma existsb_max_into (cur other : list Z) :
  existsb (fun v => 0 <? v) cur = true ->
  existsb (fun v => 0 <? v) (cv2.max_into cur other) = true.
Proof.
  revert other. induction cur as [|x cur IH]; intros other H; cbn in *; [discriminate|].
  apply orb_true_iff in H. apply orb_true_iff. destruct H as [Hx|Hrest].
  - left. apply Z.ltb_lt in Hx. apply Z.ltb_lt. lia.
  - right. now apply IH.
Qed.

Lemma any_above_vmax3 (prev : list Z) (m : Mat) :
  any_above 0 m = true -> any_above 0 (cv2.vmax3 prev m) = true.
Proof.
  unfold any_above. revert prev.
  induction m as [|r m IH]; intros prev H; cbn in *; [discriminate|].
  apply orb_true_iff in H. apply orb_true_iff. destruct H as [Hr|Hrest].
  - left. now apply existsb_max_into, existsb_max_into.
  - right. now apply IH.
Qed.

Lemma any_above_dilate3x3 (m : Mat) :
  any_above 0 m = true -> any_above 0 (cv2.dilate3x3 m) = true.
Proof.
  intros H. unfold cv2.dilate3x3. apply any_above_vmax3.
  unfold any_above in *. induction m as [|r m IH]; cbn in *; [discriminate|].
  apply orb_true_iff in H. apply orb_true_iff. destruct H as [Hr|Hrest].
  - left. now apply existsb_hmax3.
  - right. now apply IH.
Qed.

Lemma any_above_dilate (m : Mat) (n : nat) :
  any_above 0 m = true -> any_above 0 (cv2.dilate m n) = true.
Proof.
  intros H. unfold cv2.dilate. induction n as [|n IH]; cbn; [exact H|].
  now apply any_above_dilate3x3.
Qed.

Lemma any_above_threshold (m : Mat) :
  any_above 0 (cv2.threshold_BINARY m 25 255) = any_above 25 m.
Proof.
  unfold any_above, cv2.threshold_BINARY.
  induction m as [|r m IH]; cbn; [reflexivity|]. rewrite IH. f_equal.
  induction r as [|v r IHr]; cbn; [reflexivity|]. rewrite IHr. f_equal.
  destruct (25 <? v); reflexivity.
Qed.

Lemma threshold_quiet (m : Mat) :
  any_above 25 m = false -> cv2.threshold_BINARY m 25 255 = zeros m.
Proof.
  unfold any_above, cv2.threshold_BINARY, zeros.
  induction m as [|r m IH]; cbn; [reflexivity|]. intros H.
  apply orb_false_iff in H. destruct H as [Hr Hm]. rewrite (IH Hm). f_equal.
  clear IH Hm. induction r as [|v r IHr]; cbn in *; [reflexivity|].
  apply orb_false_iff in Hr. destruct Hr as [Hv Hr]. now rewrite Hv, (IHr Hr).
Qed.

Lemma nonzero_row_above (y x : nat) (row : list Z) :
  existsb (fun v => 0 <? v) row = true -> cv2.nonzero_row y x row <> [].
Proof.
  revert x. induction row as [|v row IH]; intros x H; cbn in *; [discriminate|].
  apply orb_true_iff in H. destruct H as [Hv|Hrest].
  - apply Z.ltb_lt in Hv. destruct (Z.eqb_spec v 0); [lia|]. discriminate.
  - intros Hnil. apply app_eq_nil in Hnil. destruct Hnil as [_ Hnil].
    exact (IH (S x) Hrest Hnil).
Qed.

Lemma nonzero_above (m : Mat) : any_above 0 m = true -> cv2.nonzero m <> [].
Proof.
  unfold any_above, cv2.nonzero. generalize 0%nat.
  induction m as [|r m IH]; intros y H; cbn in *; [discriminate|].
  apply orb_true_iff in H. intros Hnil. apply app_eq_nil in Hnil.
  destruct Hnil as [Hrow Hrest]. destruct H as [Hr|Hm].
  - exact (nonzero_row_above y 0 r Hr Hrow).
  - exact (IH (S y) Hm Hrest).
Qed.

Lemma findContours_above (m : Mat) :
  any_above 0 m = true -> (0 <? length (cv2.findContours m))%nat = true.
Proof.
  intros H. unfold cv2.findContours.
  pose proof (nonzero_above m H) as Hne.
  destruct (cv2.nonzero m) as [|p pts]; [congruence|].
  cbn [length cv2.regions]. destruct (cv2.flood (length pts) [p] pts). reflexivity.
Qed.

(** X2: for two frames of one size with at least one pixel, [detect_motion]
    reports motion exactly when the grey values of some pixel differ by more
    than 25. *)
Theorem detect_motion_threshold (frame1 frame2 : Frame) :
  empty frame1 = false -> empty frame2 = false -> shape frame1 = shape frame2 ->
  detect_motion frame1 frame2
  = Ok (any_above 25 (gray_diff frame1 frame2), motion_mask frame1 frame2).
Proof.
  intros H1 H2 Hsh. rewrite detect_motion_accepts by assumption.
  apply (f_equal Ok). f_equal. unfold motion_mask.
  destruct (any_above 25 (gray_diff frame1 frame2)) eqn:Hd.
  - apply findContours_above, any_above_dilate. now rewrite any_above_threshold.
  - rewrite (threshold_quiet _ Hd), dilate_zeros, findContours_zeros. reflexivity.
Qed.

Lemma detect_motion_threshold_witness :
  detect_motion [[px 0; px 30]] [[px 5; px 5]] = Ok (false, [[0; 0]]) /\
  detect_motion [[px 0; px 31]] [[px 5; px 5]] = Ok (true, [[255; 255]]).
Proof.
  split.
  - apply (detect_motion_threshold [[px 0; px 30]] [[px 5; px 5]]); reflexivity.
  - apply (detect_motion_threshold [[px 0; px 31]] [[px 5; px 5]]); reflexivity.
Defined.


End MotionFlag.

(** ** The risk levels *)

Section RiskLevels.
Local Open Scope Q_scope.

(** X4: the result is one of the four status texts; it is the "Active"
    text exactly when a human is present and there is motion; and the test
    ["ALERT" in risk_status] of [main] succeeds exactly when a human is
    present, there is no motion and the time without motion exceeds 10
    seconds. *)
Theorem analyze_levels (human_present motion_detected : bool) (time_without_motion : Q) :
  In (analyze_drowning_risk human_present motion_detected time_without_motion)
     [NO_HUMAN; ACTIVE; ALERT; MONITORING] /\
  (analyze_drowning_risk human_present motion_detected time_without_motion = ACTIVE
     <-> human_present = true /\ motion_detected = true) /\
  (str_in "ALERT"
     (analyze_drowning_risk human_present motion_detected time_without_motion) = true
     <-> human_present = true /\ motion_detected = false /\ 10 < time_without_motion).
Proof.
  unfold analyze_drowning_risk.
  destruct human_present, motion_detected; cbn [negb].
  - split; [cbn; auto|]. split; split; auto; try discriminate.
    intros (_ & H & _). discriminate H.
  - destruct (Qgtb time_without_motion 10) eqn:E.
    + split; [cbn; auto|]. split; split; try discriminate.
      * intros (_ & H). discriminate H.
      * intros _. repeat split. now apply Qgtb_spec.
      * reflexivity.
    + split; [cbn; auto|]. split; split; try discriminate.
      * intros (_ & H). discriminate H.
      * intros (_ & _ & H). apply Qgtb_spec in H. congruence.
  - split; [cbn; auto|]. split; split; try discriminate.
    + intros (H & _). discriminate H.
    + intros (H & _). discriminate H.
  - split; [cbn; auto|]. split; split; try discriminate.
    + intros (H & _). discriminate H.
    + intros (H & _). discriminate H.
Qed.

Lemma is_alert_analyze (hp motion : bool) (twm : Q) :
  is_alert (analyze_drowning_risk hp motion twm) = true ->
  analyze_drowning_risk hp motion twm = ALERT /\ hp = true /\ motion = false /\ 10 < twm.
Proof.
  unfold is_alert, analyze_drowning_risk.
  destruct hp, motion; cbn [negb]; try discriminate.
  destruct (Qgtb twm 10) eqn:E; [|discriminate].
  intros _. repeat split. now apply Qgtb_spec.
Qed.

End RiskLevels.

(** ** Whole runs of [main] *)

Section WholeRuns.
Variable w : World.

(** [main] on a video of at least two frames: the banner, then the loop. *)
Lemma run_unfold (frame1 frame2 : Frame) (cap : list Frame) :
  video w = frame1 :: frame2 :: cap ->
  run w =
    (monitor_loop w cap frame1 frame2 (clock w 0) 0 false ;; print "System stopped")
      (loop_entry w).
Proof.
  intros Hv. unfold run, main, loop_entry, banner. rewrite Hv.
  destruct (argv w) as [|a [|video_path rest]]; reflexivity.
Qed.

(** Invariant rule on the interpreter state: what every iteration preserves
    holds when the loop is left. *)
Lemma monitor_loop_sys_rule (Inv : nat -> bool -> Sys -> Prop)
  (Post : Sys -> result unit -> Prop) :
  (forall c hp s, Inv c hp s -> Post s (Ok tt)) ->
  (forall frame1 frame2 lmt c hp s, Inv c hp s ->
     match loop_body w frame1 frame2 lmt c hp s with
     | (s', Ok (_, hp')) => Inv (S c) hp' s'
     | (s', Err e) => Post s' (Err e)
     end) ->
  forall cap frame1 frame2 lmt c hp s,
    Inv c hp s ->
    Post (fst (monitor_loop w cap frame1 frame2 lmt c hp s))
         (snd (monitor_loop w cap frame1 frame2 lmt c hp s)).
Proof.
  intros Hexit Hbody.
  induction cap as [|frame3 cap IH]; intros frame1 frame2 lmt c hp s HI;
    cbn [monitor_loop]; (destruct (isOpened w c); [|exact (Hexit _ _ _ HI)]);
    unfold bind; specialize (Hbody frame1 frame2 lmt c hp s HI);
    destruct (loop_body w frame1 frame2 lmt c hp s) as [s' [[lmt' hp']|e]];
    cbn [fst snd]; try exact Hbody.
  - exact (Hexit _ _ _ Hbody).
  - destruct (Z.land (waitKey w (S c)) 255 =? 113)%Z.
    + exact (Hexit _ _ _ Hbody).
    + apply IH. exact Hbody.
Qed.

Lemma run_short :
  length (video w) < 2 ->
  run w = (MkSys [Print (banner w); Print "Error: Cannot read video feed"] 0 0 [], Ok tt).
Proof.
  intros Hlen. unfold run, main, banner.
  destruct (video w) as [|frame1 [|frame2 cap]]; cbn [length] in Hlen; try lia;
    destruct (argv w) as [|a [|video_path rest]]; reflexivity.
Qed.

(** X5: on a video of fewer than two frames [main] prints its banner and
    "Error: Cannot read video feed" and returns: no frame is evaluated, the
    clock is not read, the detector is not called, nothing is stored, and
    "System stopped" is not printed. *)
Theorem main_short_video :
  length (video w) < 2 ->
  run w = (MkSys [Print (banner w); Print "Error: Cannot read video feed"] 0 0 [], Ok tt).
Proof. exact run_short. Qed.

Lemma body_outcome_evaluated (c : nat) (hp : bool) (v v' : View) (x : Q * bool) :
  body_outcome w c hp v v' (Ok x) -> length (seen v') = S (length (seen v)).
Proof.
  intros H. remember (Ok x) as r eqn:Hr.
  destruct H; try discriminate Hr.
  cbn [seen]. now rewrite length_app, Nat.add_1_r.
Qed.

Lemma body_outcome_at_most_one (c : nat) (hp : bool) (v v' : View) (r : result (Q * bool)) :
  body_outcome w c hp v v' r -> length (seen v') <= S (length (seen v)).
Proof.
  intros H. destruct H; cbn [seen]; rewrite ?length_app, ?Nat.add_1_r; lia.
Qed.

Lemma loop_body_evaluates (frame1 frame2 : Frame) (lmt : Q) (c : nat) (hp : bool) (s : Sys)
  (motion : bool) (thresh : Mat) :
  detect_motion frame1 frame2 = Ok (motion, thresh) ->
  sqlite_fault w (length (alerts s)) = None ->
  exists s' lmt' hp',
    loop_body w frame1 frame2 lmt c hp s = (s', Ok (lmt', hp')) /\
    length (statuses (trace s')) = S (length (statuses (trace s))).
Proof.
  intros Hm Hsink.
  pose proof (loop_body_outcome w frame1 frame2 lmt c hp s) as Hb.
  assert (Hok : exists s' lmt' hp',
             loop_body w frame1 frame2 lmt c hp s = (s', Ok (lmt', hp'))).
  { rewrite loop_body_eq, Hm. cbv zeta. rewrite Hsink.
    match goal with |- context [if ?b then _ else _] => destruct b end; eauto. }
  destruct Hok as (s' & lmt' & hp' & Heq). exists s', lmt', hp'.
  split; [exact Heq|].
  rewrite Heq in Hb. cbn [fst snd] in Hb.
  exact (body_outcome_evaluated _ _ _ _ _ Hb).
Qed.

Lemma monitor_loop_completes (sh : nat * nat) :
  (forall n, isOpened w n = true) ->
  (forall n, Z.land (waitKey w n) 255 <> 113%Z) ->
  (forall n, sqlite_fault w n = None) ->
  forall cap frame1 frame2 lmt c hp s,
    uniform_video (frame1 :: frame2 :: cap) sh ->
    exists s',
      monitor_loop w cap frame1 frame2 lmt c hp s = (s', Ok tt) /\
      length (statuses (trace s')) = length (statuses (trace s)) + S (length cap).
Proof.
  intros Hopen Hkey Hsink.
  induction cap as [|frame3 cap IH]; intros frame1 frame2 lmt c hp s Hu;
    inversion Hu as [|? ? [He1 Hs1] Hu1]; subst;
    inversion Hu1 as [|? ? [He2 Hs2] Hu2]; subst;
    pose proof (detect_motion_accepts frame1 frame2 He1 He2 ltac:(congruence)) as Hm;
    destruct (loop_body_evaluates frame1 frame2 lmt c hp s _ _ Hm (Hsink _))
      as (s1 & lmt1 & hp1 & Hbody & Hlen);
    cbn [monitor_loop]; rewrite Hopen; unfold bind; rewrite Hbody.
  - exists s1. split; [reflexivity|]. cbn [length]. lia.
  - destruct (Z.eqb_spec (Z.land (waitKey w (S c)) 255) 113) as [Hq|_];
      [now elim (Hkey (S c))|].
    destruct (IH frame2 frame3 lmt1 (S c) hp1 s1 Hu1) as (s' & Hloop & Hlen').
    exists s'. split; [exact Hloop|]. cbn [length]. lia.
Qed.

Lemma statuses_banner : statuses [Print (banner w)] = [].
Proof. unfold banner. destruct (argv w) as [|a [|video_path rest]]; reflexivity. Qed.

Lemma statuses_loop_entry : statuses (trace (loop_entry w)) = [].
Proof.
  unfold loop_entry. cbn [trace].
  change (statuses ([Print (banner w)] ++ [Print "AI Drowning Detection System Started";
                                           Print "Press 'q' to quit"]) = []).
  now rewrite statuses_app, statuses_banner.
Qed.

Lemma view_loop_entry : view (loop_entry w) = empty_view.
Proof.
  unfold view, empty_view. rewrite statuses_loop_entry. f_equal.
Qed.

(** X6: on a video of at least two frames, all of one size and with at
    least one pixel, with the capture staying open, no 'q' pressed and
    SQLite accepting every insertion, [main] evaluates every pair of
    consecutive frames (one frame fewer than the video has), returns
    normally, and the last thing it prints is "System stopped". *)
Theorem main_evaluates_every_pair (sh : nat * nat) :
  2 <= length (video w) ->
  uniform_video (video w) sh ->
  (forall n, isOpened w n = true) ->
  (forall n, Z.land (waitKey w n) 255 <> 113%Z) ->
  (forall n, sqlite_fault w n = None) ->
  snd (run w) = Ok tt /\
  length (statuses (trace (fst (run w)))) = length (video w) - 1 /\
  exists tr, trace (fst (run w)) = tr ++ [Print "System stopped"].
Proof.
  intros Hlen Hu Hopen Hkey Hsink.
  destruct (video w) as [|frame1 [|frame2 cap]] eqn:Hv; cbn [length] in Hlen; try lia.
  rewrite (run_unfold frame1 frame2 cap Hv). unfold bind.
  destruct (monitor_loop_completes sh Hopen Hkey Hsink cap frame1 frame2
              (clock w 0) 0 false (loop_entry w) Hu) as (s' & Hloop & Hcount).
  rewrite Hloop. cbn [fst snd print emit trace]. split; [reflexivity|]. split.
  - rewrite statuses_app. cbn [statuses flat_map status_of drop_prefix].
    rewrite app_nil_r, Hcount, statuses_loop_entry. cbn [length]. lia.
  - now exists (trace s').
Qed.


Lemma monitor_loop_quits (k : nat) :
  Z.land (waitKey w k) 255 = 113%Z ->
  forall cap frame1 frame2 lmt c hp s,
    c < k ->
    length (statuses (trace (fst (monitor_loop w cap frame1 frame2 lmt c hp s))))
    <= length (statuses (trace s)) + (k - c).
Proof.
  intros Hq.
  induction cap as [|frame3 cap IH]; intros frame1 frame2 lmt c hp s Hlt;
    cbn [monitor_loop]; (destruct (isOpened w c); [|cbn [fst ret]; lia]);
    unfold bind;
    pose proof (body_outcome_at_most_one _ _ _ _ _
                  (loop_body_outcome w frame1 frame2 lmt c hp s)) as Hone;
    cbn [seen view] in Hone;
    destruct (loop_body w frame1 frame2 lmt c hp s) as [s1 [[lmt1 hp1]|e]];
    cbn [fst snd ret] in *; try lia.
  destruct (Z.eqb_spec (Z.land (waitKey w (S c)) 255) 113) as [_|Hne]; cbn [fst ret].
  - lia.
  - assert (Hlt' : S c < k).
    { destruct (Nat.eq_dec (S c) k) as [Heq|]; [|lia].
      rewrite <- Heq in Hq. now elim Hne. }
    specialize (IH frame2 frame3 lmt1 (S c) hp1 s1 Hlt'). lia.
Qed.

(** X7: when [cv2.waitKey] answers with a code whose low byte is that of
    'q' at the end of iteration k, the loop is left there: the run evaluates
    at most k frames. *)
Theorem main_quits_on_q (k : nat) :
  0 < k ->
  Z.land (waitKey w k) 255 = 113%Z ->
  length (statuses (trace (fst (run w)))) <= k.
Proof.
  intros Hk Hq.
  destruct (video w) as [|frame1 [|frame2 cap]] eqn:Hv.
  - rewrite run_short by (rewrite Hv; cbn; lia). cbn [fst trace].
    change (length (statuses ([Print (banner w)] ++ [Print "Error: Cannot read video feed"]))
            <= k).
    rewrite statuses_app, statuses_banner. cbn. lia.
  - rewrite run_short by (rewrite Hv; cbn; lia). cbn [fst trace].
    change (length (statuses ([Print (banner w)] ++ [Print "Error: Cannot read video feed"]))
            <= k).
    rewrite statuses_app, statuses_banner. cbn. lia.
  - rewrite (run_unfold frame1 frame2 cap Hv). unfold bind.
    pose proof (monitor_loop_quits k Hq cap frame1 frame2 (clock w 0) 0 false
                  (loop_entry w) Hk) as Hloop.
    rewrite statuses_loop_entry in Hloop. cbn [length] in Hloop.
    destruct (monitor_loop w cap frame1 frame2 (clock w 0) 0 false (loop_entry w))
      as [s' [[]|e]]; cbn [fst snd print emit trace] in *.
    + rewrite statuses_app. cbn [statuses flat_map status_of drop_prefix].
      rewrite app_nil_r. lia.
    + lia.
Qed.

Lemma loop_event_detection (n : nat) (frame : Frame) :
  Forall loop_event (detection_events w n frame).
Proof.
  unfold detection_events. destruct (detect_body w n frame) as [v|e].
  - repeat constructor.
  - constructor; [exact I|]. constructor; [|constructor]. right. now exists (exn_msg e).
Qed.

(** What one iteration does to the trace and to the table: it only appends,
    and it appends at most one row. *)
Lemma loop_body_appends (frame1 frame2 : Frame) (lmt : Q) (c : nat) (hp : bool) (s : Sys) :
  (exists evs, trace (fst (loop_body w frame1 frame2 lmt c hp s)) = trace s ++ evs /\
               Forall loop_event evs) /\
  (exists rows, alerts (fst (loop_body w frame1 frame2 lmt c hp s)) = alerts s ++ rows /\
                Forall drowning_row rows /\ length rows <= 1).
Proof.
  rewrite loop_body_eq.
  destruct (detect_motion frame1 frame2) as [[motion thresh]|e].
  2:{ split; [exists [] | exists []]; cbn [fst]; rewrite app_nil_r; repeat split; auto. }
  cbv zeta.
  set (sampling := S c mod 30 =? 0).
  set (hp' := if sampling then 0 <? fst (detected w (detects s) frame2) else hp).
  set (lmt' := if motion then clock w (ticks s) else lmt).
  set (twm := (clock w (if motion then S (ticks s) else ticks s) - lmt')%Q).
  set (st := analyze_drowning_risk hp' motion twm).
  assert (Hdet : Forall loop_event
                   (if sampling then detection_events w (detects s) frame2 else [])).
  { destruct sampling; [apply loop_event_detection | constructor]. }
  assert (Hst : Forall loop_event [Print ("Status: " ++ st)]).
  { constructor; [|constructor]. left. now exists st. }
  destruct (str_in "ALERT" st) eqn:Ha.
  - destruct (sqlite_fault w (length (alerts s))) as [e|]; cbn [fst trace alerts].
    + split.
      * eexists. split; [reflexivity|]. apply Forall_app. now split.
      * exists []. rewrite app_nil_r. repeat split; auto.
    + split.
      * rewrite <- app_assoc. eexists. split; [reflexivity|].
        repeat (apply Forall_app; split); auto.
        -- destruct (SOUND_AVAILABLE w); repeat constructor.
        -- repeat constructor.
      * eexists. split; [reflexivity|]. split; [|cbn; lia].
        constructor; [|constructor].
        destruct (is_alert_analyze hp' motion twm Ha) as (Hst' & _ & _ & Hgt).
        unfold drowning_row. cbn [fst snd d_status d_time_without_motion].
        fold st in Hst'. auto.
  - cbn [fst trace alerts]. split.
    + rewrite <- app_assoc. eexists. split; [reflexivity|].
      repeat (apply Forall_app; split); auto. repeat constructor.
    + exists []. rewrite app_nil_r. repeat split; auto.
Qed.

(** The same for the whole loop. *)
Lemma monitor_loop_appends (cap : list Frame) (frame1 frame2 : Frame) (lmt : Q) (c : nat)
  (hp : bool) (s : Sys) :
  (exists evs, trace (fst (monitor_loop w cap frame1 frame2 lmt c hp s)) = trace s ++ evs /\
               Forall loop_event evs) /\
  (exists rows, alerts (fst (monitor_loop w cap frame1 frame2 lmt c hp s)) = alerts s ++ rows /\
                Forall drowning_row rows).
Proof.
  apply (monitor_loop_sys_rule
           (fun _ _ s' =>
              (exists evs, trace s' = trace s ++ evs /\ Forall loop_event evs) /\
              (exists rows, alerts s' = alerts s ++ rows /\ Forall drowning_row rows))
           (fun s' _ =>
              (exists evs, trace s' = trace s ++ evs /\ Forall loop_event evs) /\
              (exists rows, alerts s' = alerts s ++ rows /\ Forall drowning_row rows))).
  - auto.
  - intros f1 f2 lmt0 c0 hp0 s0 [(evs & Ht & Hevs) (rows & Ha & Hrows)].
    destruct (loop_body_appends f1 f2 lmt0 c0 hp0 s0)
      as [(evs' & Ht' & Hevs') (rows' & Ha' & Hrows' & _)].
    assert (Hgoal :
      (exists evs0, trace (fst (loop_body w f1 f2 lmt0 c0 hp0 s0)) = trace s ++ evs0 /\
                    Forall loop_event evs0) /\
      (exists rows0, alerts (fst (loop_body w f1 f2 lmt0 c0 hp0 s0)) = alerts s ++ rows0 /\
                     Forall drowning_row rows0)).
    { split.
      - exists (evs ++ evs'). rewrite Ht', Ht, app_assoc. split; [reflexivity|].
        apply Forall_app. now split.
      - exists (rows ++ rows'). rewrite Ha', Ha, app_assoc. split; [reflexivity|].
        apply Forall_app. now split. }
    destruct (loop_body w f1 f2 lmt0 c0 hp0 s0) as [s1 [[lmt1 hp1]|e]]; exact Hgoal.
  - split; [exists [] | exists []]; rewrite app_nil_r; auto.
Qed.


Lemma not_loop_event_stopped : ~ loop_event (Print "System stopped").
Proof.
  cbn. intros [[st H]|[msg H]]; cbn in H; congruence.
Qed.

Lemma banner_not_stopped : Print (banner w) <> Print "System stopped".
Proof.
  unfold banner. destruct (argv w) as [|a [|video_path rest]]; cbn; congruence.
Qed.

(** X9: "System stopped" (printed after the capture is released) appears
    only when the loop is left without an exception: when [main] raises,
    the line is never printed; when [main] returns on a video of at least
    two frames, it is the last line, and it is printed once. *)
Theorem system_stopped_after_clean_exit :
  (forall e, snd (run w) = Err e ->
             ~ In (Print "System stopped") (trace (fst (run w)))) /\
  (2 <= length (video w) -> snd (run w) = Ok tt ->
   exists tr, trace (fst (run w)) = tr ++ [Print "System stopped"] /\
              ~ In (Print "System stopped") tr).
Proof.
  assert (Hentry : ~ In (Print "System stopped") (trace (loop_entry w))).
  { cbn. intros [H|[H|[H|[]]]]; try discriminate H.
    now apply banner_not_stopped. }
  assert (Hloop : forall cap f1 f2 lmt,
             ~ In (Print "System stopped")
                 (trace (fst (monitor_loop w cap f1 f2 lmt 0 false (loop_entry w))))).
  { intros cap f1 f2 lmt.
    destruct (monitor_loop_appends cap f1 f2 lmt 0 false (loop_entry w))
      as [(evs & -> & Hevs) _].
    intros Hin. apply in_app_or in Hin. destruct Hin as [Hin|Hin]; [now apply Hentry|].
    rewrite Forall_forall in Hevs. exact (not_loop_event_stopped (Hevs _ Hin)). }
  destruct (video w) as [|frame1 [|frame2 cap]] eqn:Hv.
  - rewrite run_short by (rewrite Hv; cbn; lia). split; [discriminate|]. cbn. lia.
  - rewrite run_short by (rewrite Hv; cbn; lia). split; [discriminate|]. cbn. lia.
  - rewrite (run_unfold frame1 frame2 cap Hv). unfold bind.
    specialize (Hloop cap frame1 frame2 (clock w 0)).
    destruct (monitor_loop w cap frame1 frame2 (clock w 0) 0 false (loop_entry w))
      as [s' [[]|e]]; cbn [fst snd print emit trace] in *.
    + split; [discriminate|]. intros _ _. now exists (trace s').
    + split; [|discriminate]. intros e' _. exact Hloop.
Qed.

(** An iteration that ends with [human_present = False]. *)
Lemma loop_body_absent (frame1 frame2 : Frame) (lmt : Q) (c : nat) (hp : bool) (s : Sys)
  (motion : bool) (thresh : Mat) :
  detect_motion frame1 frame2 = Ok (motion, thresh) ->
  (if S c mod 30 =? 0 then 0 <? fst (detected w (detects s) frame2) else hp) = false ->
  exists s' lmt',
    loop_body w frame1 frame2 lmt c hp s = (s', Ok (lmt', false)) /\
    statuses (trace s') = statuses (trace s) ++ [NO_HUMAN] /\
    alerts s' = alerts s.
Proof.
  intros Hm Habs. rewrite loop_body_eq, Hm. cbv zeta. rewrite Habs, analyze_absent.
  change (str_in "ALERT" NO_HUMAN) with false. cbv iota.
  eexists. eexists. split; [reflexivity|]. split; [|reflexivity].
  pose proof (view_after_status w s (S c mod 30 =? 0) frame2 NO_HUMAN
                [Imshow "Motion Detection" thresh] 0 0 [] eq_refl eq_refl) as Hv.
  apply (f_equal seen) in Hv. exact Hv.
Qed.

(** An iteration on a pair of frames with motion. *)
Lemma loop_body_motion (frame1 frame2 : Frame) (lmt : Q) (c : nat) (hp : bool) (s : Sys)
  (thresh : Mat) :
  detect_motion frame1 frame2 = Ok (true, thresh) ->
  exists s' hp' st,
    loop_body w frame1 frame2 lmt c hp s = (s', Ok (clock w (ticks s), hp')) /\
    statuses (trace s') = statuses (trace s) ++ [st] /\
    (st = ACTIVE \/ st = NO_HUMAN) /\
    alerts s' = alerts s.
Proof.
  intros Hm. rewrite loop_body_eq, Hm. cbv zeta.
  set (hp' := if S c mod 30 =? 0 then 0 <? fst (detected w (detects s) frame2) else hp).
  set (twm := (clock w (S (ticks s)) - clock w (ticks s))%Q).
  assert (Hst : analyze_drowning_risk hp' true twm = ACTIVE /\ hp' = true \/
                analyze_drowning_risk hp' true twm = NO_HUMAN /\ hp' = false).
  { destruct hp'; [left | right]; split; reflexivity. }
  assert (Hq : str_in "ALERT" (analyze_drowning_risk hp' true twm) = false).
  { destruct Hst as [[-> _]|[-> _]]; reflexivity. }
  rewrite Hq.
  eexists. exists hp', (analyze_drowning_risk hp' true twm).
  split; [reflexivity|]. split; [|split; [tauto | reflexivity]].
  pose proof (view_after_status w s (S c mod 30 =? 0) frame2
                (analyze_drowning_risk hp' true twm)
                [Imshow "Motion Detection" thresh] 0 0 [] eq_refl eq_refl) as Hv.
  apply (f_equal seen) in Hv. exact Hv.
Qed.

(** X10: an iteration on a pair of frames in which [detect_motion] finds
    motion sets [last_motion_time] to the current clock reading, prints the
    "Active" status (or "No human detected"), and stores no alert. *)
Theorem motion_resets_timer (frame1 frame2 : Frame) (lmt : Q) (c : nat) (hp : bool)
  (s : Sys) (thresh : Mat) :
  detect_motion frame1 frame2 = Ok (true, thresh) ->
  exists s' hp' st,
    loop_body w frame1 frame2 lmt c hp s = (s', Ok (clock w (ticks s), hp')) /\
    statuses (trace s') = statuses (trace s) ++ [st] /\
    (st = ACTIVE \/ st = NO_HUMAN) /\
    alerts s' = alerts s.
Proof. exact (loop_body_motion frame1 frame2 lmt c hp s thresh). Qed.

(** Invariant rule for a run of [main], on the interpreter state. *)
Lemma run_sys_rule (Inv : nat -> bool -> Sys -> Prop) (Post : Sys -> result unit -> Prop) :
  (forall c hp s, Inv c hp s -> Post s (Ok tt)) ->
  (forall frame1 frame2 lmt c hp s, Inv c hp s ->
     match loop_body w frame1 frame2 lmt c hp s with
     | (s', Ok (_, hp')) => Inv (S c) hp' s'
     | (s', Err e) => Post s' (Err e)
     end) ->
  Inv 0 false (loop_entry w) ->
  (forall s, Post s (Ok tt) -> Post (fst (print "System stopped" s)) (Ok tt)) ->
  Post (MkSys [Print (banner w); Print "Error: Cannot read video feed"] 0 0 []) (Ok tt) ->
  Post (fst (run w)) (snd (run w)).
Proof.
  intros Hexit Hstep Hinit Hstop Hshort.
  destruct (video w) as [|frame1 [|frame2 cap]] eqn:Hv.
  - rewrite run_short by (rewrite Hv; cbn; lia). exact Hshort.
  - rewrite run_short by (rewrite Hv; cbn; lia). exact Hshort.
  - rewrite (run_unfold frame1 frame2 cap Hv). unfold bind.
    pose proof (monitor_loop_sys_rule Inv Post Hexit Hstep cap frame1 frame2
                  (clock w 0) 0 false (loop_entry w) Hinit) as Hloop.
    destruct (monitor_loop w cap frame1 frame2 (clock w 0) 0 false (loop_entry w))
      as [s' [[]|e]]; cbn [fst snd] in Hloop.
    + exact (Hstop _ Hloop).
    + exact Hloop.
Qed.

(** X11: when neither the YOLO detector nor TensorFlow is available,
    [human_present] never becomes true: every status of the run is
    "No human detected" and no alert is ever stored. *)
Theorem no_backend_never_alerts :
  USE_YOLO w = false -> USE_TF w = false ->
  Forall (eq NO_HUMAN) (statuses (trace (fst (run w)))) /\
  alerts (fst (run w)) = [].
Proof.
  intros Hy Ht.
  assert (Hdet : forall n frame, detected w n frame = (0, [])).
  { intros n frame. unfold detected, detect_body. now rewrite Hy, Ht. }
  apply (run_sys_rule
           (fun _ hp s => hp = false /\ Forall (eq NO_HUMAN) (statuses (trace s)) /\
                          alerts s = [])
           (fun s _ => Forall (eq NO_HUMAN) (statuses (trace s)) /\ alerts s = [])).
  - intros c hp s (_ & H1 & H2). auto.
  - intros f1 f2 lmt c hp s (Hhp & Hall & Hrows).
    destruct (detect_motion f1 f2) as [[motion thresh]|e] eqn:Hm.
    + assert (Habs : (if S c mod 30 =? 0 then 0 <? fst (detected w (detects s) f2) else hp)
                     = false).
      { rewrite Hdet, Hhp. now destruct (S c mod 30 =? 0). }
      destruct (loop_body_absent f1 f2 lmt c hp s motion thresh Hm Habs)
        as (s' & lmt' & -> & Hsts & Hal).
      split; [reflexivity|]. split; [|congruence].
      rewrite Hsts. apply Forall_app. split; [exact Hall|]. now constructor.
    + rewrite loop_body_eq, Hm. auto.
  - split; [reflexivity|]. split; [|reflexivity].
    rewrite statuses_loop_entry. constructor.
  - intros s (Hall & Hrows). cbn [fst print emit trace alerts]. split; [|exact Hrows].
    rewrite statuses_app. cbn [statuses flat_map status_of drop_prefix].
    now rewrite app_nil_r.
  - cbn [trace alerts]. split; [|reflexivity].
    change (Forall (eq NO_HUMAN)
              (statuses ([Print (banner w)] ++ [Print "Error: Cannot read video feed"]))).
    rewrite statuses_app, statuses_banner. constructor.
Qed.

(** X12: no alert is stored for the first 29 frames: a run that evaluates
    N frames stores at most N - 29 alerts, so none when N is below 30. *)
Theorem no_alert_before_frame_30 :
  length (alerts (fst (run w))) <= length (statuses (trace (fst (run w)))) - 29.
Proof.
  change (length (stored (view (fst (run w)))) <= length (seen (view (fst (run w)))) - 29).
  apply (run_rule w
           (fun c hp v => c = length (seen v) /\ (c < 30 -> hp = false) /\
                          length (stored v) <= c - 29)
           (fun v _ => length (stored v) <= length (seen v) - 29)).
  - intros c hp v (-> & _ & H). exact H.
  - intros c hp v v' r (Hc & Hhp & Hle) Hb.
    assert (Hearly : forall hp' motion twm,
               (S c mod 30 <> 0 -> hp' = hp) -> c < 29 ->
               is_alert (analyze_drowning_risk hp' motion twm) = false).
    { intros hp' motion twm Hkeep Hlt.
      rewrite Hkeep by (rewrite Nat.mod_small by lia; discriminate).
      rewrite Hhp by lia. reflexivity. }
    destruct Hb as [e | motion twm lmt' hp' Hkeep Hsink | motion twm hp' e Hkeep Ha Hf];
      cbn [seen stored].
    + subst c. exact Hle.
    + rewrite !length_app. cbn [length]. split; [lia|]. split.
      * intros Hlt. rewrite Hkeep; [apply Hhp; lia|].
        rewrite Nat.mod_small by lia. discriminate.
      * destruct (Nat.lt_ge_cases c 29) as [Hlt|Hge].
        -- rewrite (Hearly hp' motion twm Hkeep Hlt). cbn [length]. lia.
        -- destruct (is_alert _); cbn [length]; lia.
    + rewrite length_app. cbn [length]. lia.
  - cbn. repeat split; auto.
Qed.

End WholeRuns.

(** ** Reading the alerts back *)

Section Database.
Variable stamp : nat -> Z.
Local Open Scope Z_scope.

Lemma length_table_from (i : nat) (rows : list Row) :
  length (table_from stamp i rows) = length rows.
Proof.
  revert i. induction rows as [|[ty d] rows IH]; intros i; cbn; [reflexivity|].
  now rewrite IH.
Qed.

Lemma table_from_app (i : nat) (rows more : list Row) :
  table_from stamp i (rows ++ more)
  = table_from stamp i rows ++ table_from stamp (i + length rows) more.
Proof.
  revert i. induction rows as [|[ty d] rows IH]; intros i; cbn.
  - now rewrite Nat.add_0_r.
  - rewrite IH. do 3 f_equal. lia.
Qed.

Lemma table_from_stamps (i : nat) (rows : list Row) (r : AlertRecord) :
  In r (table_from stamp i rows) ->
  exists k, (i <= k < i + length rows)%nat /\ a_timestamp r = stamp k /\ a_id r = S k.
Proof.
  revert i. induction rows as [|[ty d] rows IH]; intros i; cbn; [contradiction|].
  intros [<-|Hin].
  - exists i. cbn. repeat split; lia.
  - destruct (IH (S i) Hin) as (k & Hk & Hts & Hid). exists k. repeat split; auto; lia.
Qed.

Lemma insert_desc_perm (r : AlertRecord) (l : list AlertRecord) :
  Permutation (insert_desc r l) (r :: l).
Proof.
  induction l as [|r' l IH]; cbn; [reflexivity|].
  destruct (a_timestamp r' <=? a_timestamp r); [reflexivity|].
  rewrite IH. apply perm_swap.
Qed.

Lemma order_perm (l : list AlertRecord) : Permutation (order_by_timestamp_desc l) l.
Proof.
  induction l as [|r l IH]; cbn; [reflexivity|].
  rewrite insert_desc_perm. now constructor.
Qed.

Lemma insert_desc_sorted (r : AlertRecord) (l : list AlertRecord) :
  newest_first l -> newest_first (insert_desc r l).
Proof.
  unfold newest_first. induction 1 as [|r' l Hl IH Hall]; cbn.
  - repeat constructor.
  - destruct (Z.leb_spec (a_timestamp r') (a_timestamp r)) as [Hle|Hgt].
    + constructor; [now constructor|]. constructor; [exact Hle|].
      rewrite Forall_forall in *. intros x Hx. specialize (Hall x Hx). lia.
    + constructor; [exact IH|].
      rewrite Forall_forall in *. intros x Hx.
      apply (Permutation_in _ (insert_desc_perm r l)) in Hx.
      destruct Hx as [<-|Hx]; [lia | now apply Hall].
Qed.

Lemma order_sorted (l : list AlertRecord) : newest_first (order_by_timestamp_desc l).
Proof.
  induction l as [|r l IH]; cbn; [constructor | now apply insert_desc_sorted].
Qed.

Lemma In_firstn {A} (n : nat) (l : list A) (x : A) : In x (firstn n l) -> In x l.
Proof.
  intros H. rewrite <- (firstn_skipn n l). apply in_or_app. now left.
Qed.

Lemma newest_first_firstn (n : nat) (l : list AlertRecord) :
  newest_first l -> newest_first (firstn n l).
Proof.
  unfold newest_first. intros H. revert n.
  induction H as [|r l Hl IH Hall]; intros [|n]; cbn; try constructor.
  - apply IH.
  - rewrite Forall_forall in *. intros x Hx. apply Hall.
    now apply (In_firstn n).
Qed.

Lemma order_newest_last (l : list AlertRecord) (x : AlertRecord) :
  (forall a, In a l -> a_timestamp a < a_timestamp x) ->
  order_by_timestamp_desc (l ++ [x]) = x :: order_by_timestamp_desc l.
Proof.
  induction l as [|a l IH]; intros Hmax; cbn; [reflexivity|].
  rewrite IH by (intros b Hb; apply Hmax; now right). cbn.
  destruct (Z.leb_spec (a_timestamp x) (a_timestamp a)) as [Hle|_]; [|reflexivity].
  specialize (Hmax a (or_introl eq_refl)). lia.
Qed.

Lemma recent_rows (limit : Z) (s : Sys) :
  exists recent,
    get_recent_alerts stamp None limit s = (s, Ok recent) /\
    newest_first recent /\
    incl recent (table stamp (alerts s)) /\
    length recent
    = (if limit <? 0 then length (alerts s)
       else Nat.min (Z.to_nat limit) (length (alerts s))).
Proof.
  eexists. split; [reflexivity|]. unfold sql_limit.
  pose proof (order_sorted (table stamp (alerts s))) as Hsorted.
  pose proof (order_perm (table stamp (alerts s))) as Hperm.
  assert (Hlen : length (order_by_timestamp_desc (table stamp (alerts s)))
                 = length (alerts s)).
  { rewrite (Permutation_length Hperm). apply length_table_from. }
  destruct (limit <? 0).
  - split; [exact Hsorted|]. split; [|exact Hlen].
    intros r Hr. exact (Permutation_in _ Hperm Hr).
  - split; [now apply newest_first_firstn|]. split.
    + intros r Hr. apply (Permutation_in _ Hperm). now apply (In_firstn (Z.to_nat limit)).
    + now rewrite length_firstn, Hlen.
Qed.


(** X14: an alert logged with a timestamp later than that of every row
    already in the table is the first row [get_recent_alerts] returns, for
    every limit other than 0; its id is the number of rows the table then
    holds. *)
Theorem logged_alert_is_most_recent (w : World) (alert_type : string) (details : Details)
  (limit : Z) (s : Sys) :
  sqlite_fault w (length (alerts s)) = None ->
  (forall i, (i < length (alerts s))%nat -> stamp i < stamp (length (alerts s))) ->
  limit <> 0 ->
  exists s' older,
    (log_alert w alert_type details ;; get_recent_alerts stamp None limit)%py s
    = (s', Ok (MkAlert (S (length (alerts s))) (stamp (length (alerts s)))
                       alert_type details :: older)) /\
    alerts s' = alerts s ++ [(alert_type, details)].
Proof.
  intros Hsink Hlater Hlimit.
  unfold bind, log_alert. rewrite Hsink. unfold get_recent_alerts. cbn [alerts].
  unfold table. rewrite table_from_app. cbn [table_from Nat.add].
  rewrite order_newest_last.
  - unfold sql_limit. destruct (limit <? 0) eqn:Hneg.
    + eexists. eexists. split; reflexivity.
    + apply Z.ltb_ge in Hneg.
      destruct (Z.to_nat limit) as [|n] eqn:Hn; [lia|].
      cbn [firstn]. eexists. eexists. split; reflexivity.
  - intros a Ha. destruct (table_from_stamps 0 (alerts s) a Ha) as (k & Hk & -> & _).
    cbn [a_timestamp]. apply Hlater. lia.
Qed.

Variable show_timestamp : Z -> string.
Variable show_details : Details -> string.

Lemma print_lines_eq (lines : list string) (s : Sys) :
  print_lines lines s
  = (MkSys (trace s ++ map Print lines) (ticks s) (detects s) (alerts s), Ok tt).
Proof.
  revert s. induction lines as [|line lines IH]; intros s; cbn [print_lines map].
  - unfold ret. rewrite app_nil_r. now destruct s.
  - unfold bind, print, emit. rewrite IH. cbn [trace ticks detects alerts].
    now rewrite <- app_assoc.
Qed.

(** X15: [view_alerts()] leaves the table as it is and returns; on an empty
    table it prints the single line "No alerts logged yet.", otherwise the
    line "Recent Alerts:" followed by one line for each of the at most ten
    rows [get_recent_alerts()] returns.  When the query raises, nothing is
    printed and the exception leaves [view_alerts]. *)
Theorem view_alerts_lines (s : Sys) :
  (exists lines,
     view_alerts stamp None show_timestamp show_details s
     = (MkSys (trace s ++ map Print lines) (ticks s) (detects s) (alerts s), Ok tt) /\
     match alerts s with
     | [] => lines = ["No alerts logged yet."%string]
     | _ :: _ =>
         exists recent,
           get_recent_alerts stamp None 10 s = (s, Ok recent) /\
           lines = "Recent Alerts:"%string
                   :: map (alert_line show_timestamp show_details) recent /\
           length lines = S (Nat.min 10 (length (alerts s)))
     end) /\
  (forall e, view_alerts stamp (Some e) show_timestamp show_details s = (s, Err e)).
Proof.
  split; [|reflexivity].
  destruct (recent_rows 10 s) as (recent & Hq & _ & _ & Hlen).
  cbn [Z.ltb Z.compare] in Hlen. change (Z.to_nat 10) with 10%nat in Hlen.
  unfold view_alerts, bind. rewrite Hq.
  destruct (alerts s) as [|row rows] eqn:Hrows.
  - destruct recent as [|r recent]; [|cbn in Hlen; discriminate Hlen].
    exists ["No alerts logged yet."%string]. split; [|reflexivity].
    unfold print, emit. rewrite Hrows. reflexivity.
  - destruct recent as [|r recent]; [cbn in Hlen; discriminate Hlen|].
    exists ("Recent Alerts:"%string
            :: map (alert_line show_timestamp show_details) (r :: recent)).
    split.
    + unfold print, emit. rewrite print_lines_eq. cbn [trace ticks detects alerts].
      rewrite Hrows, <- app_assoc. reflexivity.
    + exists (r :: recent). split; [reflexivity|]. split; [reflexivity|].
      cbn [length]. now rewrite length_map, Hlen.
Qed.

End Database.

(** ** The sound alert *)

Section Sound.
Variable w : World.

Lemma beeps_app (a b : list Event) : beeps (a ++ b) = beeps a + beeps b.
Proof. unfold beeps. now rewrite filter_app, length_app. Qed.

Lemma beeps_detection (n : nat) (frame : Frame) : beeps (detection_events w n frame) = 0.
Proof. unfold detection_events. destruct (detect_body w n frame); reflexivity. Qed.

Lemma loop_body_beeps (frame1 frame2 : Frame) (lmt : Q) (c : nat) (hp : bool) (s : Sys) :
  beeps (trace s) = (if SOUND_AVAILABLE w then length (alerts s) else 0) ->
  beeps (trace (fst (loop_body w frame1 frame2 lmt c hp s)))
  = (if SOUND_AVAILABLE w then length (alerts (fst (loop_body w frame1 frame2 lmt c hp s)))
     else 0).
Proof.
  intros H. rewrite loop_body_eq.
  destruct (detect_motion frame1 frame2) as [[motion thresh]|e]; [|exact H].
  cbv zeta.
  assert (Hdet : beeps (if S c mod 30 =? 0 then detection_events w (detects s) frame2 else [])
                 = 0).
  { destruct (S c mod 30 =? 0); [apply beeps_detection | reflexivity]. }
  match goal with |- context [if str_in "ALERT" ?st then _ else _] =>
    destruct (str_in "ALERT" st) end.
  - destruct (sqlite_fault w (length (alerts s))); cbn [fst trace alerts].
    + rewrite !beeps_app, Hdet, H. cbn. lia.
    + rewrite !beeps_app, Hdet, H, length_app.
      destruct (SOUND_AVAILABLE w); cbn; lia.
  - cbn [fst trace alerts]. rewrite !beeps_app, Hdet, H. cbn. lia.
Qed.

(** X16: [winsound.Beep] is called once for every alert that is stored when
    the sound module is available, and never when it is not. *)
Theorem one_beep_per_stored_alert :
  beeps (trace (fst (run w)))
  = (if SOUND_AVAILABLE w then length (alerts (fst (run w))) else 0).
Proof.
  apply (run_sys_rule w
           (fun _ _ s => beeps (trace s)
                         = (if SOUND_AVAILABLE w then length (alerts s) else 0))
           (fun s _ => beeps (trace s)
                       = (if SOUND_AVAILABLE w then length (alerts s) else 0))).
  - auto.
  - intros f1 f2 lmt c hp s HI.
    pose proof (loop_body_beeps f1 f2 lmt c hp s HI) as Hb.
    destruct (loop_body w f1 f2 lmt c hp s) as [s' [[lmt' hp']|e]]; exact Hb.
  - cbn. now destruct (SOUND_AVAILABLE w).
  - intros s HI. cbn [fst print emit trace alerts]. rewrite beeps_app, HI. cbn. lia.
  - cbn. now destruct (SOUND_AVAILABLE w).
Qed.

End Sound.

(** ** A video without motion *)

Section StillVideo.
Variable w : World.






End StillVideo.


(** ** Instances *)

Lemma main_short_video_witness :
  run (quiet_world 1)
  = (MkSys [Print "Using webcam"; Print "Error: Cannot read video feed"] 0 0 [], Ok tt).
Proof. apply (main_short_video (quiet_world 1)). cbn. lia. Defined.

Lemma main_evaluates_every_pair_witness :
  snd (run (quiet_world 5)) = Ok tt /\
  length (statuses (trace (fst (run (quiet_world 5))))) = 5 - 1 /\
  exists tr, trace (fst (run (quiet_world 5))) = tr ++ [Print "System stopped"].
Proof.
  apply (main_evaluates_every_pair (quiet_world 5) (1, 1)).
  - cbn. lia.
  - repeat constructor.
  - reflexivity.
  - intros n. cbn. discriminate.
  - reflexivity.
Defined.

Lemma main_quits_on_q_witness :
  length (statuses (trace (fst (run quitting_world)))) <= 2.
Proof. apply (main_quits_on_q quitting_world 2); [lia | reflexivity]. Defined.

Lemma system_stopped_after_clean_exit_witness :
  ~ In (Print "System stopped") (trace (fst (run (locked_world 33)))) /\
  exists tr, trace (fst (run (quiet_world 5))) = tr ++ [Print "System stopped"] /\
             ~ In (Print "System stopped") tr.
Proof.
  split.
  - apply (proj1 (system_stopped_after_clean_exit (locked_world 33))
             (Raise "sqlite3.OperationalError" "database is locked")).
    reflexivity.
  - apply (proj2 (system_stopped_after_clean_exit (quiet_world 5))).
    + cbn. lia.
    + reflexivity.
Defined.

Lemma motion_resets_timer_witness :
  exists s' hp' st,
    loop_body (quiet_world 3) [[px 0]] [[px 200]] 0 0 false boot
    = (s', Ok (clock (quiet_world 3) 0, hp')) /\
    statuses (trace s') = [] ++ [st] /\
    (st = ACTIVE \/ st = NO_HUMAN) /\
    alerts s' = [].
Proof.
  apply (motion_resets_timer (quiet_world 3) [[px 0]] [[px 200]] 0%Q 0 false boot [[255%Z]]).
  reflexivity.
Defined.

Lemma no_backend_never_alerts_witness :
  Forall (eq NO_HUMAN) (statuses (trace (fst (run (blind_world 40))))) /\
  alerts (fst (run (blind_world 40))) = [].
Proof. apply (no_backend_never_alerts (blind_world 40)); reflexivity. Defined.

Lemma logged_alert_is_most_recent_witness :
  exists s' older,
    (log_alert (quiet_world 2) "DROWNING_ALERT" (MkDetails ALERT 12)
     ;; get_recent_alerts Z.of_nat None 1)%py
      (MkSys [] 0 0 [("DROWNING_ALERT", MkDetails ALERT 11)])
    = (s', Ok (MkAlert 2 1 "DROWNING_ALERT" (MkDetails ALERT 12) :: older)) /\
    alerts s' = [("DROWNING_ALERT", MkDetails ALERT 11)]
                ++ [("DROWNING_ALERT", MkDetails ALERT 12)].
Proof.
  apply (logged_alert_is_most_recent Z.of_nat (quiet_world 2) "DROWNING_ALERT"
           (MkDetails ALERT 12) 1 (MkSys [] 0 0 [("DROWNING_ALERT", MkDetails ALERT 11)])).
  - reflexivity.
  - intros i Hi. cbn [alerts length] in *. lia.
  - discriminate.
Defined.
